(** * Catalog cache, search and delivery of the Filmzy bot (bot.py)

    A shallow embedding of the catalog core of [bot.py]: the process-wide
    movie cache and its refresh from SQLite, the term search over the cache,
    the two-tier delivery of one movie ([send_movie_to_user]), the batch
    dispatch of a search ([search_and_send_movies]), the text and inline
    handlers, and the duplicate query.

    Modelling conventions.
    - A Python [str] is a [string] whose characters are the code points
      U+0000..U+00FF; [lower], [split] and [in] follow CPython on that range.
    - A [datetime] is the number of microseconds since [datetime.min]; a
      [timedelta] is the normalised triple CPython keeps.
    - The globals [movie_cache] and [last_cache_refresh] are fields of an
      explicit [world]; everything the bot does to the outside (SQLite reads,
      Bot API calls) is appended to the world's [trace], and the outside
      answers through an [env] of oracles that see the trace so far.
    - Python exceptions are an outcome [Raise e] that keeps the world reached
      so far; [try ... except] is [catch_if].
    - f-strings sent to users are kept as structured [message_text] values
      that carry the interpolated fields.
    - Logging is not modelled; one handler run is modelled at a time. *)

From Stdlib Require Import ZArith List Bool Lia Ascii String.
Import ListNotations.

Local Open Scope Z_scope.
Local Open Scope list_scope.

(* ====================================================================== *)
(** ** Python strings *)
(* ====================================================================== *)

(** [str.isspace] on one code point below U+0100: TAB..CR, FS..US, SPACE,
    NEL (U+0085) and NBSP (U+00A0). *)
Definition isspace (c : ascii) : bool :=
  let n := N_of_ascii c in
  (((9 <=? n) && (n <=? 13)) || ((28 <=? n) && (n <=? 32))
   || (n =? 133) || (n =? 160))%N.

(** [str.lower] on one code point below U+0100: A..Z and the Latin-1 capitals
    U+00C0..U+00DE (except the multiplication sign U+00D7) move up by 32. *)
Definition lower_char (c : ascii) : ascii :=
  let n := N_of_ascii c in
  if (((65 <=? n) && (n <=? 90))
      || ((192 <=? n) && (n <=? 222) && negb (n =? 215)))%N
  then ascii_of_N (n + 32) else c.

(** [s.lower()] *)
Fixpoint lower (s : string) : string :=
  match s with
  | EmptyString => EmptyString
  | String c s' => String (lower_char c) (lower s')
  end.

(** [len(s) == 0] *)
Definition is_empty (s : string) : bool :=
  match s with EmptyString => true | String _ _ => false end.

(** The scan of [s.split()] with no separator: [word] is the run of
    non-space characters read so far; a space closes a non-empty run and is
    otherwise skipped, so no empty string is ever produced. *)
Fixpoint split_from (word : string) (s : string) : list string :=
  match s with
  | EmptyString => if is_empty word then [] else [word]
  | String c s' =>
      if isspace c
      then (if is_empty word then split_from EmptyString s'
            else word :: split_from EmptyString s')
      else split_from (word ++ String c EmptyString)%string s'
  end.

(** [s.split()] *)
Definition split (s : string) : list string := split_from EmptyString s.

(** [s.startswith(p)] *)
Fixpoint startswith (p s : string) : bool :=
  match p, s with
  | EmptyString, _ => true
  | String _ _, EmptyString => false
  | String a p', String b s' => Ascii.eqb a b && startswith p' s'
  end.

(** [t in s] for strings: [t] occurs at some offset of [s]. *)
Fixpoint str_in (t s : string) : bool :=
  startswith t s
  || match s with
     | EmptyString => false
     | String _ s' => str_in t s'
     end.

(* ====================================================================== *)
(** ** Catalog entries and the SQLite rows they come from *)
(* ====================================================================== *)

(** One dict of [movie_cache]. *)
Record movie : Type := Movie {
  title : string;
  id : Z;
  category : string;
  file_id : option string;
  media_type : string
}.

(** One row of [SELECT title, message_id, category, file_id, media_type
    FROM movies]; the last two columns are nullable. *)
Record movie_row : Type := Row {
  row_title : string;
  row_message_id : Z;
  row_category : string;
  row_file_id : option string;
  row_media_type : option string
}.

(** [row[4] or 'document'] *)
Definition or_document (o : option string) : string :=
  match o with
  | Some s => if is_empty s then "document"%string else s
  | None => "document"%string
  end.

(** The dict built per row in [refresh_movie_cache]. *)
Definition movie_of_row (row : movie_row) : movie :=
  {| title := row_title row;
     id := row_message_id row;
     category := row_category row;
     file_id := row_file_id row;
     media_type := or_document (row_media_type row) |}.

(** The outcome of a SQLite call: the value, or a [sqlite3.Error]. *)
Inductive sqlite_error : Type := Sqlite3Error.
Definition sqlite_result (A : Type) : Type := (A + sqlite_error)%type.

(* ====================================================================== *)
(** ** Search over the cache (bot.py 725-732, again at 777-783) *)
(* ====================================================================== *)

(** [any(term in title_lower for term in search_terms)] *)
Definition any_term_in (search_terms : list string) (title_lower : string) : bool :=
  existsb (fun term => str_in term title_lower) search_terms.

(** The loop [for movie in movie_cache: ... results.append(movie)], with
    [results] the list built so far. *)
Fixpoint search_loop (search_terms : list string) (cache results : list movie)
  : list movie :=
  match cache with
  | [] => results
  | m :: rest =>
      let title_lower := lower (title m) in
      if any_term_in search_terms title_lower
      then search_loop search_terms rest (results ++ [m])
      else search_loop search_terms rest results
  end.

(** [search_terms = query.lower().split()] followed by the loop. *)
Definition search_cache (cache : list movie) (query : string) : list movie :=
  let search_terms := split (lower query) in
  search_loop search_terms cache [].




(* ====================================================================== *)
(** ** datetime and timedelta *)
(* ====================================================================== *)

(** A naive [datetime], as microseconds since [datetime.min]. *)
Definition datetime : Type := Z.

Definition datetime_min : datetime := 0.

(** A [timedelta] is kept normalised: [0 <= seconds < 86400] and
    [0 <= microseconds < 1000000]; only [days] carries the sign. *)
Record timedelta : Type := Timedelta {
  days : Z;
  seconds : Z;
  microseconds : Z
}.

Definition US_PER_SECOND : Z := 1000000.
Definition US_PER_DAY : Z := 86400 * US_PER_SECOND.

(** [a - b] on datetimes: the difference in microseconds, normalised by
    floor division as [timedelta.__new__] does. *)
Definition datetime_sub (a b : datetime) : timedelta :=
  let us := a - b in
  {| days := us / US_PER_DAY;
     seconds := (us mod US_PER_DAY) / US_PER_SECOND;
     microseconds := us mod US_PER_SECOND |}.

(** [timedelta.total_seconds()] in whole microseconds, for comparison. *)
Definition total_microseconds (d : timedelta) : Z :=
  days d * US_PER_DAY + seconds d * US_PER_SECOND + microseconds d.

Definition CACHE_REFRESH_INTERVAL : Z := 300.

(** The test of every read path:
    [(datetime.now() - last_cache_refresh).seconds > CACHE_REFRESH_INTERVAL] *)
Definition refresh_needed (now last_cache_refresh : datetime) : bool :=
  seconds (datetime_sub now last_cache_refresh) >? CACHE_REFRESH_INTERVAL.

(* ====================================================================== *)
(** ** The outside world: Bot API calls, SQLite reads, exceptions *)
(* ====================================================================== *)

(** What a [BadRequest] of the Bot API is about; the code never looks at it,
    only at the class. *)
Inductive bad_request : Type :=
| ChatNotFound
| MessageToForwardNotFound
| WrongFileIdentifier
| MalformedRequest.

(** The exception classes a Bot API call raises ([telegram.error]). *)
Inductive exn : Type :=
| BadRequest (about : bad_request)
| Forbidden
| RetryAfter
| TimedOut
| NetworkError
| TelegramError.

(** [except (BadRequest, Forbidden)] *)
Definition is_BadRequest_or_Forbidden (e : exn) : bool :=
  match e with
  | BadRequest _ | Forbidden => true
  | _ => false
  end.

(** [except Exception] *)
Definition is_Exception (e : exn) : bool := true.

(** The texts the modelled functions send, with their interpolated fields. *)
Inductive message_text : Type :=
| TxtStartPrivateChatFirst
    (* "Please start a private chat with me first: https://t.me/{BOT_USERNAME}" *)
| TxtFailedToSendMovie
    (* "Failed to send movie. Please try again later." *)
| TxtAtLeastTwoCharacters
    (* "Please enter at least 2 characters to search." *)
| TxtNoMoviesInCategory (cat : string)
| TxtMoviesInCategory (cat : string) (total : nat) (titles : list string)
                      (more : option nat)
| TxtNoMoviesAvailable
| TxtLibraryStats (total_movies : nat) (categories : nat)
                  (last_updated : datetime)
| TxtNoMoviesFound (query : string)
| TxtFound (n : nat) (query : string)
| TxtCouldNotSendAny.
    (* "Could not send any movies. Please start a private chat with me." *)

Inductive reply_markup : Type :=
| NoMarkup
| MainMenuKeyboard (user_id : Z)
| CategoryKeyboard (categories : list string)
| StartPrivateChatButton.

(** The caption [f"{movie['title']} ({movie['category']})"]. *)
Inductive caption : Type := Caption (movie_title movie_category : string).

Inductive inline_result : Type :=
| InlineQueryResultCachedVideo (m : movie)
| InlineQueryResultCachedDocument (m : movie).

Inductive call : Type :=
| send_video (chat_id : Z) (video : string) (cap : caption)
| send_document (chat_id : Z) (document : string) (cap : caption)
| forward_message (chat_id from_chat_id message_id : Z)
| send_message (chat_id : Z) (text : message_text)
| reply_text (text : message_text) (markup : reply_markup)
| edit_message_text (text : message_text) (markup : reply_markup)
| answer (inline_results : list inline_result).

Inductive event : Type :=
| SelectMovies            (* the SELECT of refresh_movie_cache *)
| SelectCategories        (* the SELECT of get_category_keyboard *)
| Api (c : call).

(** The configuration and the oracles that answer for the outside. Each
    oracle sees the events that happened before the question. *)
Record env : Type := Env {
  STORAGE_CHANNEL_ID : Z;
  datetime_now : list event -> datetime;
  movies_table : list event -> sqlite_result (list movie_row);
  categories_table : list event -> sqlite_result (list string);
  telegram : list event -> call -> option exn
}.

(** The two globals and the trace of what was done so far (oldest first). *)
Record world : Type := World {
  movie_cache : list movie;
  last_cache_refresh : datetime;
  trace : list event
}.

(** The world after the events [evs] happened, the globals untouched. *)
Definition extend (w : world) (evs : list event) : world :=
  {| movie_cache := movie_cache w;
     last_cache_refresh := last_cache_refresh w;
     trace := trace w ++ evs |}.

Definition record (ev : event) (w : world) : world := extend w [ev].

(* ====================================================================== *)
(** ** A monad for handlers: reader of [env], state [world], exceptions *)
(* ====================================================================== *)

Inductive outcome (A : Type) : Type :=
| Return (a : A)
| Raise (e : exn).
Arguments Return {A} a.
Arguments Raise {A} e.

Definition M (A : Type) : Type := env -> world -> outcome A * world.

Definition ret {A : Type} (a : A) : M A := fun _ w => (Return a, w).

Definition bind {A B : Type} (m : M A) (k : A -> M B) : M B :=
  fun E w =>
    match m E w with
    | (Return a, w') => k a E w'
    | (Raise e, w') => (Raise e, w')
    end.

(** [try: body  except <handles> as e: handler e]; an exception the clause
    does not name, and one raised by the handler, go on to the caller. *)
Definition catch_if {A : Type} (handles : exn -> bool)
           (body : M A) (handler : exn -> M A) : M A :=
  fun E w =>
    match body E w with
    | (Return a, w') => (Return a, w')
    | (Raise e, w') => if handles e then handler e E w' else (Raise e, w')
    end.

Definition ask : M env := fun E w => (Return E, w).
Definition get : M world := fun _ w => (Return w, w).

(** One awaited Bot API call. *)
Definition api (c : call) : M unit :=
  fun E w =>
    match telegram E (trace w) c with
    | None => (Return tt, record (Api c) w)
    | Some e => (Raise e, record (Api c) w)
    end.

Declare Scope handler_scope.
Delimit Scope handler_scope with handler.
Notation "x <- m ;; k" := (bind m (fun x => k))
  (at level 100, m at next level, right associativity) : handler_scope.
Notation "m ;; k" := (bind m (fun _ => k))
  (at level 100, right associativity) : handler_scope.
Local Open Scope handler_scope.

(* ====================================================================== *)
(** ** refresh_movie_cache (bot.py 174-199) *)
(* ====================================================================== *)

(** The SELECT either yields all rows or raises [sqlite3.Error]. On rows the
    two globals are assigned and [True] is returned; on the error the
    [except] clause returns [False] and no global has been assigned. *)
Definition refresh_movie_cache : M bool :=
  fun E w =>
    let w1 := record SelectMovies w in
    match movies_table E (trace w) with
    | inl rows =>
        (Return true,
         {| movie_cache := map movie_of_row rows;
            last_cache_refresh := datetime_now E (trace w1);
            trace := trace w1 |})
    | inr Sqlite3Error => (Return false, w1)
    end.

(** The module-level state before the initial cache load. *)
Definition initial_world : world :=
  {| movie_cache := []; last_cache_refresh := datetime_min; trace := [] |}.

(** [if (datetime.now() - last_cache_refresh).seconds >
       CACHE_REFRESH_INTERVAL: refresh_movie_cache()] *)
Definition refresh_if_needed : M unit :=
  E <- ask ;;
  w <- get ;;
  if refresh_needed (datetime_now E (trace w)) (last_cache_refresh w)
  then (_ <- refresh_movie_cache ;; ret tt)
  else ret tt.

(* ====================================================================== *)
(** ** send_movie_to_user (bot.py 304-359) *)
(* ====================================================================== *)

(** [if chat_id: await context.bot.send_message(chat_id=chat_id, text=...)] *)
Definition notify (chat_id : option Z) (text : message_text) : M unit :=
  match chat_id with
  | Some c => if c =? 0 then ret tt else api (send_message c text)
  | None => ret tt
  end.

(** [next((m for m in movie_cache if m['id'] == movie_id), None)] *)
Definition find_movie (cache : list movie) (movie_id : Z) : option movie :=
  find (fun m => id m =? movie_id) cache.

(** The send by content reference: [send_video] for a video, [send_document]
    otherwise, with the caption of title and category. *)
Definition direct_send (user_id : Z) (mv : movie) (f : string) : call :=
  if String.eqb (media_type mv) "video"
  then send_video user_id f (Caption (title mv) (category mv))
  else send_document user_id f (Caption (title mv) (category mv)).

(** Lines 314-332. [Some true] is the [return True] of the fast path; [None]
    is control reaching the fallback, either because [file_id] is falsy or
    because the send raised and [except Exception] swallowed it. *)
Definition try_file_id (user_id : Z) (mv : movie) : M (option bool) :=
  match file_id mv with
  | Some f =>
      if is_empty f then ret None
      else
        catch_if is_Exception
          (api (direct_send user_id mv f) ;; ret (Some true))
          (fun _ => ret None)
  | None => ret None
  end.

(** Lines 334-351: forward the archived message; [BadRequest] and
    [Forbidden] are answered with the start-a-private-chat text. *)
Definition forward_fallback (user_id movie_id : Z) (chat_id : option Z) : M bool :=
  E <- ask ;;
  catch_if is_BadRequest_or_Forbidden
    (api (forward_message user_id (STORAGE_CHANNEL_ID E) movie_id) ;;
     ret true)
    (fun _ => notify chat_id TxtStartPrivateChatFirst ;; ret false).

Definition send_movie_to_user (user_id movie_id : Z) (chat_id : option Z) : M bool :=
  catch_if is_Exception
    (w <- get ;;
     match find_movie (movie_cache w) movie_id with
     | None => ret false
     | Some mv =>
         fast <- try_file_id user_id mv ;;
         match fast with
         | Some r => ret r
         | None => forward_fallback user_id movie_id chat_id
         end
     end)
    (fun _ => notify chat_id TxtFailedToSendMovie ;; ret false).

(* ====================================================================== *)
(** ** Handlers (bot.py 592-607, 668-806) *)
(* ====================================================================== *)

(** What the handlers read from a message update. *)
Record update : Type := Update {
  effective_user_id : Z;
  effective_chat_id : Z;
  message_text_of : string
}.

(** The loop of lines 744-753 over [results[:10]]. *)
Fixpoint send_loop (upd : update) (batch : list movie) (sent_count : nat) : M nat :=
  match batch with
  | [] => ret sent_count
  | mv :: rest =>
      success <- send_movie_to_user (effective_user_id upd) (id mv)
                                    (Some (effective_chat_id upd)) ;;
      send_loop upd rest (if success then S sent_count else sent_count)
  end.

Definition search_and_send_movies (upd : update) (query : string) : M unit :=
  refresh_if_needed ;;
  w <- get ;;
  let results := search_cache (movie_cache w) query in
  match results with
  | [] =>
      api (reply_text (TxtNoMoviesFound query)
                      (MainMenuKeyboard (effective_user_id upd)))
  | _ :: _ =>
      api (reply_text (TxtFound (List.length results) query) NoMarkup) ;;
      sent_count <- send_loop upd (firstn 10 results) 0%nat ;;
      if Nat.eqb sent_count 0
      then api (reply_text TxtCouldNotSendAny StartPrivateChatButton)
      else ret tt
  end.

Definition handle_message (upd : update) : M unit :=
  let text := message_text_of upd in
  if startswith "/" text then ret tt
  else if (2 <=? String.length text)%nat
       then search_and_send_movies upd text
       else api (reply_text TxtAtLeastTwoCharacters
                            (MainMenuKeyboard (effective_user_id upd))).

Definition inline_result_of (mv : movie) : inline_result :=
  if String.eqb (media_type mv) "video"
  then InlineQueryResultCachedVideo mv
  else InlineQueryResultCachedDocument mv.

Definition inline_query_handler (query : string) : M unit :=
  if is_empty query || (String.length query <? 2)%nat then ret tt
  else
    refresh_if_needed ;;
    w <- get ;;
    let results := search_cache (movie_cache w) query in
    api (answer (map inline_result_of (firstn 50 results))).

(** [get_category_keyboard] (bot.py 227-246): the category buttons, or only
    the main-menu button when the SELECT raises. *)
Definition get_category_keyboard : M reply_markup :=
  fun E w =>
    match categories_table E (trace w) with
    | inl names => (Return (CategoryKeyboard names), record SelectCategories w)
    | inr Sqlite3Error => (Return (CategoryKeyboard []), record SelectCategories w)
    end.

Definition show_category_movies (cat : string) : M unit :=
  refresh_if_needed ;;
  w <- get ;;
  let category_movies :=
    filter (fun m => String.eqb (lower (category m)) (lower cat)) (movie_cache w) in
  match category_movies with
  | [] =>
      kb <- get_category_keyboard ;;
      api (edit_message_text (TxtNoMoviesInCategory cat) kb)
  | _ :: _ =>
      let n := List.length category_movies in
      let movie_list := map title (firstn 20 category_movies) in
      let more := if (20 <? n)%nat then Some (n - 20)%nat else None in
      kb <- get_category_keyboard ;;
      api (edit_message_text (TxtMoviesInCategory cat n movie_list more) kb)
  end.

Definition list_all_movies (from_user_id : Z) : M unit :=
  refresh_if_needed ;;
  w <- get ;;
  match movie_cache w with
  | [] =>
      api (edit_message_text TxtNoMoviesAvailable (MainMenuKeyboard from_user_id))
  | _ :: _ =>
      let total_movies := List.length (movie_cache w) in
      let categories := nodup string_dec (map category (movie_cache w)) in
      api (edit_message_text
             (TxtLibraryStats total_movies (List.length categories)
                              (last_cache_refresh w))
             (MainMenuKeyboard from_user_id))
  end.

(* ====================================================================== *)
(** ** find_duplicate_movies (bot.py 459-474) *)
(* ====================================================================== *)

(** [GROUP BY title] with [COUNT( * )]: one running count per distinct title.
    A TEXT column compares with the BINARY collation, that is by exact
    equality of the stored strings. Groups are kept in order of first
    occurrence; SQL promises no order. *)
Fixpoint bump (t : string) (groups : list (string * nat)) : list (string * nat) :=
  match groups with
  | [] => [(t, 1%nat)]
  | (t', n) :: rest =>
      if String.eqb t' t then (t', S n) :: rest else (t', n) :: bump t rest
  end.

Definition group_by_title (rows : list movie_row) : list (string * nat) :=
  fold_left (fun groups row => bump (row_title row) groups) rows [].

(** [HAVING count > 1] *)
Definition having_count_gt_1 (groups : list (string * nat)) : list (string * nat) :=
  filter (fun g => (1 <? snd g)%nat) groups.

(** The rows of the query, or [[]] when SQLite raises. *)
Definition find_duplicate_movies (db : sqlite_result (list movie_row))
  : list (string * nat) :=
  match db with
  | inl rows => having_count_gt_1 (group_by_title rows)
  | inr Sqlite3Error => []
  end.

(* ====================================================================== *)
(** ** The statements of the specification, and data for examples *)
(* ====================================================================== *)

(** The entry test of the search loop, as a function of the query. *)
Definition title_matches (query : string) (m : movie) : bool :=
  any_term_in (split (lower query)) (lower (title m)).


(** The count a list of groups holds for a title, 0 when it has no group. *)
Fixpoint count_in (groups : list (string * nat)) (t : string) : nat :=
  match groups with
  | [] => 0%nat
  | (t', n) :: rest => if String.eqb t' t then n else count_in rest t
  end.

(** Groups are well formed when no title has two groups and no group is
    empty. *)
Definition groups_wf (groups : list (string * nat)) : Prop :=
  NoDup (map fst groups) /\ forall t n, In (t, n) groups -> (0 < n)%nat.

(** The number of rows whose title is exactly [t]. *)
Definition rows_titled (t : string) (rows : list movie_row) : nat :=
  count_occ string_dec (map row_title rows) t.

(** The store rows of the specification's duplicate example, and three rows
    whose titles differ only by case or by a trailing space. *)
Definition rows_A_A_B : list movie_row :=
  [ {| row_title := "A"; row_message_id := 1; row_category := "Other";
       row_file_id := None; row_media_type := None |};
    {| row_title := "A"; row_message_id := 2; row_category := "Other";
       row_file_id := None; row_media_type := None |};
    {| row_title := "B"; row_message_id := 3; row_category := "Other";
       row_file_id := None; row_media_type := None |} ].

Definition rows_heat_variants : list movie_row :=
  [ {| row_title := "Heat"; row_message_id := 1; row_category := "Action";
       row_file_id := None; row_media_type := None |};
    {| row_title := "heat"; row_message_id := 2; row_category := "Action";
       row_file_id := None; row_media_type := None |};
    {| row_title := "Heat "; row_message_id := 3; row_category := "Action";
       row_file_id := None; row_media_type := None |} ].


(** The forward of the fallback path. *)
Definition fallback_call (E : env) (user_id movie_id : Z) : call :=
  forward_message user_id (STORAGE_CHANNEL_ID E) movie_id.


(** The rejection of short queries as the specification words it: a text of
    fewer than two characters is answered with the minimum-length prompt. *)
Definition short_text_gets_prompt : Prop :=
  forall (E : env) (w : world) (upd : update),
    (String.length (message_text_of upd) < 2)%nat ->
    exists r w',
      handle_message upd E w = (r, w')
      /\ trace w'
         = trace w ++ [Api (reply_text TxtAtLeastTwoCharacters
                                       (MainMenuKeyboard (effective_user_id upd)))].

(** The Bot API never refuses a notice sent with [send_message]. *)
Definition notices_delivered (E : env) : Prop :=
  forall tr chat_id text, telegram E tr (send_message chat_id text) = None.

(** The three catalog entries of the specification's search example. *)
Definition inception : movie :=
  {| title := "Inception"; id := 101; category := "Sci-Fi";
     file_id := None; media_type := "document" |}.
Definition the_matrix : movie :=
  {| title := "The Matrix"; id := 102; category := "Sci-Fi";
     file_id := None; media_type := "document" |}.
Definition matrix_reloaded : movie :=
  {| title := "Matrix Reloaded"; id := 103; category := "Sci-Fi";
     file_id := None; media_type := "document" |}.

(** An entry that carries a content reference. *)
Definition heat : movie :=
  {| title := "Heat"; id := 104; category := "Action";
     file_id := Some "BQACAgQAAx0"%string; media_type := "video" |}.

Definition row_of (m : movie) : movie_row :=
  {| row_title := title m; row_message_id := id m;
     row_category := category m; row_file_id := file_id m;
     row_media_type := Some (media_type m) |}.

(** An outside where the clock reads [t], the table holds [rows] and the
    Bot API answers through [api_answer]. *)
Definition env_with (t : datetime) (rows : sqlite_result (list movie_row))
           (api_answer : list event -> call -> option exn) : env :=
  {| STORAGE_CHANNEL_ID := -1001234567890;
     datetime_now := fun _ => t;
     movies_table := fun _ => rows;
     categories_table := fun _ => inl [];
     telegram := api_answer |}.

Definition api_ok : list event -> call -> option exn := fun _ _ => None.

(** Every forward raises [e]; everything else goes through. *)
Definition api_forward_fails (e : exn) : list event -> call -> option exn :=
  fun _ c =>
    match c with
    | forward_message _ _ _ => Some e
    | _ => None
    end.

(** Every forward raises [e1] and every notice raises [e2]. *)
Definition api_forward_and_notice_fail (e1 e2 : exn)
  : list event -> call -> option exn :=
  fun _ c =>
    match c with
    | forward_message _ _ _ => Some e1
    | send_message _ _ => Some e2
    | _ => None
    end.

(** Every send by content reference raises [e]. *)
Definition api_direct_fails (e : exn) : list event -> call -> option exn :=
  fun _ c =>
    match c with
    | send_video _ _ _ | send_document _ _ _ => Some e
    | _ => None
    end.

(** Only the forward of message [message_id] raises [e]. *)
Definition api_forward_of_fails (message_id : Z) (e : exn)
  : list event -> call -> option exn :=
  fun _ c =>
    match c with
    | forward_message _ _ m => if m =? message_id then Some e else None
    | _ => None
    end.

(** 2024-01-01 00:00:00 and later instants, in microseconds. *)
Definition t_2024 : datetime := 63839664000 * US_PER_SECOND.
Definition after (t : datetime) (d h m s : Z) : datetime :=
  t + (((d * 24 + h) * 60 + m) * 60 + s) * US_PER_SECOND.

Definition world_with (cache : list movie) (last : datetime) : world :=
  {| movie_cache := cache; last_cache_refresh := last; trace := [] |}.

(** A user writing in a group chat. *)
Definition group_update (text : string) : update :=
  {| effective_user_id := 4242; effective_chat_id := -100777;
     message_text_of := text |}.

(* ====================================================================== *)
(** ** Store writes (bot.py 361-383, 403-441) *)
(* ====================================================================== *)

(** The two tables the catalog uses, rows in rowid order; [name] of
    [categories] is UNIQUE. *)
Record database : Type := Database {
  tbl_movies : list movie_row;
  tbl_categories : list string
}.

(** [INSERT OR IGNORE INTO categories (name) VALUES (?)] *)
Definition insert_or_ignore (name : string) (names : list string) : list string :=
  if in_dec string_dec name names then names else names ++ [name].

(** The statement of [add_movie_to_db] at which SQLite raises, if any. *)
Inductive add_movie_step : Type :=
| AddConnect
| AddInsertMovie
| AddCommitMovie
| AddInsertCategory
| AddCommitCategory.

(** [add_movie_to_db]: the movie row is inserted and committed, then the
    category is inserted and committed. A [sqlite3.Error] ends the function
    with [False]; what was committed before stays, what was not is rolled
    back when the connection closes. *)
Definition add_movie_to_db (fault : option add_movie_step) (db : database)
           (new_title : string) (message_id : Z) (new_category : string)
           (new_file_id : option string) (new_media_type : string)
  : bool * database :=
  let row := {| row_title := new_title; row_message_id := message_id;
                row_category := new_category; row_file_id := new_file_id;
                row_media_type := Some new_media_type |} in
  let movies' := tbl_movies db ++ [row] in
  match fault with
  | Some AddConnect | Some AddInsertMovie | Some AddCommitMovie => (false, db)
  | Some AddInsertCategory | Some AddCommitCategory =>
      (false, {| tbl_movies := movies'; tbl_categories := tbl_categories db |})
  | None =>
      (true, {| tbl_movies := movies';
                tbl_categories := insert_or_ignore new_category (tbl_categories db) |})
  end.

(** The statement of a one-statement write at which SQLite raises, if any. *)
Inductive write_step : Type :=
| AtConnect
| AtExecute
| AtCommit.

(** [DELETE FROM movies WHERE message_id = ?] *)
Definition delete_where_id (movie_id : Z) (rows : list movie_row) : list movie_row :=
  filter (fun r => negb (row_message_id r =? movie_id)) rows.

(** [delete_movie_from_db] *)
Definition delete_movie_from_db (fault : option write_step) (db : database)
           (movie_id : Z) : bool * database :=
  match fault with
  | Some _ => (false, db)
  | None =>
      (true, {| tbl_movies := delete_where_id movie_id (tbl_movies db);
                tbl_categories := tbl_categories db |})
  end.

(** The [value] argument of [update_movie_in_db]: a string, or the dict with
    the keys [file_id] and [media_type]. *)
Inductive edit_value : Type :=
| TextValue (s : string)
| FileValue (new_file_id new_media_type : string).

(** [UPDATE movies SET ... WHERE message_id = ?] *)
Definition update_where_id (movie_id : Z) (f : movie_row -> movie_row)
           (rows : list movie_row) : list movie_row :=
  map (fun r => if row_message_id r =? movie_id then f r else r) rows.

Definition set_title (v : string) (r : movie_row) : movie_row :=
  {| row_title := v; row_message_id := row_message_id r;
     row_category := row_category r; row_file_id := row_file_id r;
     row_media_type := row_media_type r |}.

Definition set_category (v : string) (r : movie_row) : movie_row :=
  {| row_title := row_title r; row_message_id := row_message_id r;
     row_category := v; row_file_id := row_file_id r;
     row_media_type := row_media_type r |}.

Definition set_file (f m : string) (r : movie_row) : movie_row :=
  {| row_title := row_title r; row_message_id := row_message_id r;
     row_category := row_category r; row_file_id := Some f;
     row_media_type := Some m |}.

(** How [update_movie_in_db] ends: it returns a bool, or the subscript
    [value['file_id']] on a string raises [TypeError], which the
    [except sqlite3.Error] clause does not catch. *)
Inductive update_result : Type :=
| Updated (ok : bool)
| RaisedTypeError.

(** [update_movie_in_db]. A dict bound to a text column is refused by
    sqlite3 with an error of its own classes, hence [False]; a field other
    than the three known ones executes nothing and still commits. *)
Definition update_movie_in_db (fault : option write_step) (db : database)
           (movie_id : Z) (field : string) (value : edit_value)
  : update_result * database :=
  let commit (rows : list movie_row) :=
    match fault with
    | Some _ => (Updated false, db)
    | None => (Updated true,
               {| tbl_movies := rows; tbl_categories := tbl_categories db |})
    end in
  match fault with
  | Some AtConnect => (Updated false, db)
  | _ =>
      if String.eqb field "title" then
        match value with
        | TextValue v => commit (update_where_id movie_id (set_title v) (tbl_movies db))
        | FileValue _ _ => (Updated false, db)
        end
      else if String.eqb field "category" then
        match value with
        | TextValue v => commit (update_where_id movie_id (set_category v) (tbl_movies db))
        | FileValue _ _ => (Updated false, db)
        end
      else if String.eqb field "file" then
        match value with
        | TextValue _ => (RaisedTypeError, db)
        | FileValue f m => commit (update_where_id movie_id (set_file f m) (tbl_movies db))
        end
      else
        match fault with
        | Some AtCommit => (Updated false, db)
        | _ => (Updated true, db)
        end
  end.

(* ====================================================================== *)
(** ** Keyboards and the callback handler (bot.py 212-246, 609-666) *)
(* ====================================================================== *)

(** A button of an inline keyboard, without its label. *)
Inductive button : Type :=
| CallbackButton (callback_data : string)
| SwitchInlineButton.

(** [get_main_menu_keyboard] *)
Definition get_main_menu_keyboard (ADMIN_USER_ID user_id : Z) : list (list button) :=
  [ [CallbackButton "list_all"];
    [CallbackButton "show_categories"];
    [SwitchInlineButton] ]
  ++ (if user_id =? ADMIN_USER_ID
      then [ [CallbackButton "admin_panel"]; [CallbackButton "refresh_cache"] ]
      else []).

(** The buttons [get_category_keyboard] builds from the category names:
    [f'cat_{cat}'] per category, then the main-menu button. *)
Definition category_buttons (names : list string) : list (list button) :=
  map (fun cat => [CallbackButton ("cat_" ++ cat)%string]) names
  ++ [ [CallbackButton "main_menu"] ].

(** [s[n:]] *)
Fixpoint str_drop (n : nat) (s : string) : string :=
  match n, s with
  | O, _ => s
  | S n', String _ s' => str_drop n' s'
  | S _, EmptyString => EmptyString
  end.

(** The texts and keyboards [button_handler] itself edits into the message. *)
Inductive menu_text : Type :=
| MenuMainMenu
| MenuChooseCategory
| MenuAdminPanel
| MenuCacheRefreshed       (* "Cache refreshed successfully!" *)
| MenuMovieTools
| MenuUnknownCommand.

Inductive menu_keyboard : Type :=
| Markup (k : reply_markup)
| AdminPanelKeyboard
| MovieToolsKeyboard.

(** What a run of [button_handler] ends with: the edit it requests for its
    own menus, or nothing more when the branch handed over to
    [show_category_movies] or [list_all_movies], which edit by themselves. *)
Inductive button_outcome : Type :=
| Edited (text : menu_text) (keyboard : menu_keyboard)
| Delegated.

(** [button_handler] after [await query.answer()]: the if/elif chain on
    [query.data]. The edit of a menu branch is the returned value; the reads
    and edits of the called functions happen in the world. *)
Definition button_handler (ADMIN_USER_ID user_id : Z) (data : string)
  : M button_outcome :=
  let is_admin := user_id =? ADMIN_USER_ID in
  if String.eqb data "main_menu" then
    ret (Edited MenuMainMenu (Markup (MainMenuKeyboard user_id)))
  else if String.eqb data "show_categories" then
    kb <- get_category_keyboard ;;
    ret (Edited MenuChooseCategory (Markup kb))
  else if startswith "cat_" data then
    show_category_movies (str_drop 4 data) ;; ret Delegated
  else if String.eqb data "list_all" then
    list_all_movies user_id ;; ret Delegated
  else if String.eqb data "admin_panel" && is_admin then
    ret (Edited MenuAdminPanel AdminPanelKeyboard)
  else if String.eqb data "refresh_cache" && is_admin then
    _ <- refresh_movie_cache ;;
    ret (Edited MenuCacheRefreshed (Markup (MainMenuKeyboard user_id)))
  else if String.eqb data "movie_tools" && is_admin then
    ret (Edited MenuMovieTools MovieToolsKeyboard)
  else if String.eqb data "admin_back" then
    ret (Edited MenuAdminPanel AdminPanelKeyboard)
  else
    ret (Edited MenuUnknownCommand (Markup (MainMenuKeyboard user_id))).

(* ====================================================================== *)
(** ** Vocabulary for the further properties *)
(* ====================================================================== *)

(** A string has a character that is not whitespace. *)
Definition has_word (s : string) : Prop :=
  exists c, In c (list_ascii_of_string s) /\ isspace c = false.

(** Kinds of events in a trace. *)
Definition is_forward (ev : event) : bool :=
  match ev with
  | Api (forward_message _ _ _) => true
  | _ => false
  end.

Definition is_direct (ev : event) : bool :=
  match ev with
  | Api (send_video _ _ _) | Api (send_document _ _ _) => true
  | _ => false
  end.

Definition is_select_movies (ev : event) : bool :=
  match ev with
  | SelectMovies => true
  | _ => false
  end.

Definition count_events (p : event -> bool) (evs : list event) : nat :=
  List.length (filter p evs).

(** [w'] is [w] after the events [evs], with the same cache. *)
Definition grows_by (w w' : world) (evs : list event) : Prop :=
  movie_cache w' = movie_cache w
  /\ last_cache_refresh w' = last_cache_refresh w
  /\ trace w' = trace w ++ evs.


(** The sum of the counts of a list of groups. *)
Definition total_count (groups : list (string * nat)) : nat :=
  fold_right (fun g acc => (snd g + acc)%nat) 0%nat groups.

(** Case analysis on every test a run of [send_movie_to_user] meets. *)
Ltac delivery_cases E :=
  repeat match goal with
         | |- context [match telegram E ?t ?c with _ => _ end] =>
             destruct (telegram E t c)
         | |- context [if is_BadRequest_or_Forbidden ?e then _ else _] =>
             destruct (is_BadRequest_or_Forbidden e)
         | |- context [if (?c =? 0) then _ else _] => destruct (c =? 0)
         | |- context [match ?o with Some _ => _ | None => _ end] =>
             is_var o; destruct o
         end;
  cbn [fst snd trace extend movie_cache last_cache_refresh].

Ltac grown :=
  unfold grows_by, extend;
  cbn [trace movie_cache last_cache_refresh];
  split; [reflexivity|]; split; [reflexivity|];
  first [ symmetry; apply app_nil_r
        | rewrite <- ?app_assoc; cbn [app]; reflexivity ].

(** Unfolds one delivery down to the oracle questions. *)
Ltac run :=
  unfold send_movie_to_user, forward_fallback, try_file_id, notify,
         catch_if, bind, ret, ask, get, api, record, fallback_call in *;
  cbn [fst snd is_Exception] in *.

(* ====================================================================== *)
(** * Properties *)
(* ====================================================================== *)

(** ** Strings *)

Section StringFacts.

Local Open Scope string_scope.

Lemma isspace_lower_char (c : ascii) : isspace (lower_char c) = isspace c.
Proof. destruct c as [[] [] [] [] [] [] [] []]; reflexivity. Qed.



Lemma lower_app (a b : string) : lower (a ++ b) = lower a ++ lower b.
Proof. induction a as [|c a IH]; simpl; [reflexivity | now rewrite IH]. Qed.

Lemma is_empty_lower (s : string) : is_empty (lower s) = is_empty s.
Proof. now destruct s. Qed.

Lemma is_empty_true (s : string) : is_empty s = true <-> s = EmptyString.
Proof. destruct s; simpl; split; congruence. Qed.


(** Lowercasing commutes with the whitespace scan. *)
Lemma split_from_lower (s word : string) :
  split_from (lower word) (lower s) = map lower (split_from word s).
Proof.
  revert word. induction s as [|c s IH]; intros word; simpl.
  - rewrite is_empty_lower. now destruct (is_empty word).
  - rewrite isspace_lower_char, is_empty_lower.
    destruct (isspace c).
    + destruct (is_empty word); simpl; [apply (IH EmptyString) | f_equal; apply (IH EmptyString)].
    + rewrite <- IH, lower_app. reflexivity.
Qed.

Lemma split_lower (s : string) : split (lower s) = map lower (split s).
Proof. apply (split_from_lower s EmptyString). Qed.

Lemma startswith_iff (p s : string) :
  startswith p s = true <-> exists post, s = p ++ post.
Proof.
  revert s. induction p as [|a p IH]; intros s; simpl.
  - split; [intros _; now exists s | reflexivity].
  - destruct s as [|b s].
    + split; [discriminate | intros [post H]; discriminate].
    + rewrite andb_true_iff, Ascii.eqb_eq, IH. split.
      * intros [-> [post ->]]. now exists post.
      * intros [post H]. injection H as -> ->. split; [reflexivity | now exists post].
Qed.

Lemma str_in_iff (t s : string) :
  str_in t s = true <-> exists pre post, s = pre ++ t ++ post.
Proof.
  induction s as [|b s IH].
  - simpl. rewrite orb_false_r, startswith_iff. split.
    + intros [post H]. now exists EmptyString, post.
    + intros (pre & post & H). destruct pre; simpl in H; [now exists post | discriminate].
  - cbn [str_in]. rewrite orb_true_iff, startswith_iff, IH. split.
    + intros [[post H] | (pre & post & H)].
      * now exists EmptyString, post.
      * exists (String b pre), post. simpl. now rewrite H.
    + intros (pre & post & H). destruct pre as [|c pre]; simpl in H.
      * left. now exists post.
      * right. injection H as _ H. now exists pre, post.
Qed.



(** A string of spaces only has no term. *)
Lemma split_from_spaces (s : string) :
  (forall c, In c (list_ascii_of_string s) -> isspace c = true) ->
  split_from EmptyString s = [].
Proof.
  induction s as [|c s IH]; intros H; simpl; [reflexivity|].
  rewrite (H c (or_introl eq_refl)). simpl. apply IH.
  intros d Hd. apply H. now right.
Qed.

End StringFacts.

(** ** Search *)

Section SearchFacts.

Lemma search_loop_filter (terms : list string) (cache results : list movie) :
  search_loop terms cache results
  = results ++ filter (fun m => any_term_in terms (lower (title m))) cache.
Proof.
  revert results. induction cache as [|m rest IH]; intros results; simpl.
  - now rewrite app_nil_r.
  - destruct (any_term_in terms (lower (title m))); rewrite IH;
      [now rewrite <- app_assoc | reflexivity].
Qed.

Lemma search_cache_filter (cache : list movie) (query : string) :
  search_cache cache query = filter (title_matches query) cache.
Proof. unfold search_cache. now rewrite search_loop_filter. Qed.


Lemma search_cache_no_terms (cache : list movie) (query : string) :
  split (lower query) = [] -> search_cache cache query = [].
Proof.
  intros H. rewrite search_cache_filter. unfold title_matches. rewrite H.
  induction cache as [|m rest IH]; simpl; [reflexivity | exact IH].
Qed.

End SearchFacts.


(** ** The cache and its refresh *)

Section CacheFacts.

Variable E : env.

Lemma refresh_movie_cache_success (w : world) (rows : list movie_row) :
  movies_table E (trace w) = inl rows ->
  refresh_movie_cache E w
  = (Return true,
     {| movie_cache := map movie_of_row rows;
        last_cache_refresh := datetime_now E (trace w ++ [SelectMovies]);
        trace := trace w ++ [SelectMovies] |}).
Proof. intros H. unfold refresh_movie_cache. now rewrite H. Qed.

(** The check-and-refresh of the read paths never raises. *)
Lemma refresh_if_needed_returns (w : world) :
  exists w', refresh_if_needed E w = (Return tt, w').
Proof.
  unfold refresh_if_needed, bind, ask, get, ret.
  destruct (refresh_needed _ _); [|now exists w].
  unfold refresh_movie_cache.
  destruct (movies_table E (trace w)) as [rows|[]]; eexists; reflexivity.
Qed.

(** A fresh cache is used as it is: no SELECT, no change. *)
Lemma refresh_if_needed_fresh (w : world) :
  refresh_needed (datetime_now E (trace w)) (last_cache_refresh w) = false ->
  refresh_if_needed E w = (Return tt, w).
Proof. intros H. unfold refresh_if_needed, bind, ask, get, ret. now rewrite H. Qed.

Lemma refresh_if_needed_stale (w : world) :
  refresh_needed (datetime_now E (trace w)) (last_cache_refresh w) = true ->
  exists ok w', refresh_movie_cache E w = (Return ok, w')
                /\ refresh_if_needed E w = (Return tt, w')
                /\ trace w' = trace w ++ [SelectMovies].
Proof.
  intros H. unfold refresh_if_needed, bind, ask, get, ret. rewrite H.
  unfold refresh_movie_cache.
  destruct (movies_table E (trace w)) as [rows|[]]; do 2 eexists; repeat split.
Qed.

End CacheFacts.

(** The timedelta of two datetimes is normalised and loses nothing. *)
Lemma datetime_sub_total (a b : datetime) :
  total_microseconds (datetime_sub a b) = a - b.
Proof.
  unfold total_microseconds, datetime_sub. cbn [days seconds microseconds].
  change US_PER_DAY with 86400000000. change US_PER_SECOND with 1000000.
  set (us := a - b).
  pose proof (Z.div_mod us 86400000000 ltac:(lia)) as H1.
  pose proof (Z.div_mod (us mod 86400000000) 1000000 ltac:(lia)) as H2.
  assert (H3 : (us mod 86400000000) mod 1000000 = us mod 1000000).
  { change 86400000000 with (1000000 * 86400).
    rewrite Z.rem_mul_r by lia.
    rewrite (Z.mul_comm 1000000 ((us / 1000000) mod 86400)), Z.mod_add by lia.
    apply Z.mod_mod. lia. }
  lia.
Qed.

Lemma datetime_sub_seconds_range (a b : datetime) :
  0 <= seconds (datetime_sub a b) < 86400.
Proof.
  unfold datetime_sub. cbn [seconds].
  change US_PER_DAY with 86400000000. change US_PER_SECOND with 1000000.
  pose proof (Z.mod_pos_bound (a - b) 86400000000 ltac:(lia)) as H.
  split; [apply Z.div_pos; lia | apply Z.div_lt_upper_bound; lia].
Qed.

(** Within one day of the last refresh the test of the read paths is the
    comparison of the elapsed whole seconds with the interval. *)
Lemma refresh_needed_within_a_day (now last : datetime) :
  0 <= now - last < US_PER_DAY ->
  (refresh_needed now last = true
   <-> (CACHE_REFRESH_INTERVAL + 1) * US_PER_SECOND <= now - last).
Proof.
  intros H. unfold refresh_needed, datetime_sub. cbn [seconds].
  rewrite Z.mod_small by exact H.
  change CACHE_REFRESH_INTERVAL with 300.
  change US_PER_DAY with 86400000000 in *. change US_PER_SECOND with 1000000.
  rewrite Z.gtb_ltb, Z.ltb_lt.
  pose proof (Z.div_mod (now - last) 1000000 ltac:(lia)) as H1.
  pose proof (Z.mod_pos_bound (now - last) 1000000 ltac:(lia)) as H2.
  lia.
Qed.

(** C3. When the SELECT of a refresh raises, the refresh returns [False]
    instead of raising, and the cached entries and the time of the last
    refresh are what they were before the call. *)
Theorem failed_refresh_keeps_snapshot (E : env) (w : world) :
  movies_table E (trace w) = inr Sqlite3Error ->
  exists w',
    refresh_movie_cache E w = (Return false, w')
    /\ movie_cache w' = movie_cache w
    /\ last_cache_refresh w' = last_cache_refresh w.
Proof.
  intros H. exists (record SelectMovies w).
  unfold refresh_movie_cache. rewrite H. repeat split.
Qed.

Lemma failed_refresh_keeps_snapshot_witness :
  exists w',
    refresh_movie_cache (env_with t_2024 (inr Sqlite3Error) api_ok)
                        (world_with [inception; heat] (after t_2024 0 0 0 (-900)))
    = (Return false, w')
    /\ movie_cache w' = [inception; heat]
    /\ last_cache_refresh w' = after t_2024 0 0 0 (-900).
Proof.
  apply (failed_refresh_keeps_snapshot
           (env_with t_2024 (inr Sqlite3Error) api_ok)
           (world_with [inception; heat] (after t_2024 0 0 0 (-900)))).
  reflexivity.
Defined.

(** ** Delivery of one movie *)

Section DeliveryFacts.

Variable E : env.

Lemma find_movie_none (cache : list movie) (movie_id : Z) :
  (forall m, In m cache -> id m <> movie_id) ->
  find_movie cache movie_id = None.
Proof.
  intros H. unfold find_movie.
  destruct (find (fun m => id m =? movie_id) cache) as [m|] eqn:Hf; [|reflexivity].
  apply find_some in Hf. destruct Hf as [Hin Heq].
  apply Z.eqb_eq in Heq. now destruct (H m Hin).
Qed.

Lemma find_movie_id (cache : list movie) (movie_id : Z) (mv : movie) :
  find_movie cache movie_id = Some mv -> In mv cache /\ id mv = movie_id.
Proof.
  intros H. apply find_some in H. now rewrite Z.eqb_eq in H.
Qed.

Lemma extend_nil (w : world) : extend w [] = w.
Proof. destruct w. unfold extend. simpl. now rewrite app_nil_r. Qed.

Lemma extend_extend (w : world) (a b : list event) :
  extend (extend w a) b = extend w (a ++ b).
Proof. unfold extend. simpl. now rewrite app_assoc. Qed.

(** The fast path either returns [True] after one send, or falls through
    after at most one failed send; it never raises. *)
Lemma try_file_id_cases (user_id : Z) (mv : movie) (w : world) :
  try_file_id user_id mv E w = (Return None, w)
  \/ exists f, file_id mv = Some f /\ is_empty f = false
       /\ ((telegram E (trace w) (direct_send user_id mv f) = None
            /\ try_file_id user_id mv E w
               = (Return (Some true), extend w [Api (direct_send user_id mv f)]))
           \/ (exists e, telegram E (trace w) (direct_send user_id mv f) = Some e)
              /\ try_file_id user_id mv E w
                 = (Return None, extend w [Api (direct_send user_id mv f)])).
Proof.
  run. destruct (file_id mv) as [f|]; [|now left].
  destruct (is_empty f) eqn:Hf; [now left|].
  right. exists f. split; [reflexivity|]. split; [exact Hf|].
  destruct (telegram E (trace w) (direct_send user_id mv f)) as [e|] eqn:Ht.
  - right. split; [now exists e | reflexivity].
  - left. now split.
Qed.

(** When no notice is refused, the delivery of one movie returns. *)
Lemma send_movie_to_user_returns (user_id movie_id : Z) (chat_id : option Z)
      (w : world) :
  notices_delivered E ->
  exists b w', send_movie_to_user user_id movie_id chat_id E w = (Return b, w').
Proof.
  intros Hn.
  assert (Hnotify : forall t w0, exists w1, notify chat_id t E w0 = (Return tt, w1)).
  { intros t w0. unfold notify. destruct chat_id as [c|]; [|now exists w0].
    destruct (c =? 0); [now exists w0|].
    unfold api. rewrite Hn. eexists; reflexivity. }
  unfold send_movie_to_user, catch_if at 1, bind at 1, get.
  destruct (find_movie (movie_cache w) movie_id) as [mv|]; [|do 2 eexists; reflexivity].
  unfold bind at 1.
  destruct (try_file_id_cases user_id mv w) as [H | (f & _ & _ & [[_ H] | [_ H]])];
    rewrite H; try (do 2 eexists; reflexivity).
  - unfold forward_fallback, bind, ask, catch_if, api, ret.
    destruct (telegram E (trace w) _) as [e|]; [|do 2 eexists; reflexivity].
    cbn [is_Exception].
    destruct (is_BadRequest_or_Forbidden e).
    + destruct (Hnotify TxtStartPrivateChatFirst
                        (record (Api (forward_message user_id (STORAGE_CHANNEL_ID E) movie_id)) w))
        as [w1 ->].
      do 2 eexists; reflexivity.
    + destruct (Hnotify TxtFailedToSendMovie
                        (record (Api (forward_message user_id (STORAGE_CHANNEL_ID E) movie_id)) w))
        as [w1 ->].
      do 2 eexists; reflexivity.
  - unfold forward_fallback, bind, ask, catch_if, api, ret.
    set (w0 := extend w [Api (direct_send user_id mv f)]).
    destruct (telegram E (trace w0) _) as [e|]; [|do 2 eexists; reflexivity].
    cbn [is_Exception].
    destruct (is_BadRequest_or_Forbidden e).
    + destruct (Hnotify TxtStartPrivateChatFirst
                        (record (Api (forward_message user_id (STORAGE_CHANNEL_ID E) movie_id)) w0))
        as [w1 ->].
      do 2 eexists; reflexivity.
    + destruct (Hnotify TxtFailedToSendMovie
                        (record (Api (forward_message user_id (STORAGE_CHANNEL_ID E) movie_id)) w0))
        as [w1 ->].
      do 2 eexists; reflexivity.
Qed.

(** When no notice is refused, the loop reaches the end of the batch, and
    the count it returns grew by at most one per entry. *)
Lemma send_loop_returns (upd : update) (batch : list movie) :
  notices_delivered E ->
  forall (n : nat) (w : world),
  exists n' w',
    send_loop upd batch n E w = (Return n', w')
    /\ (n <= n' <= n + List.length batch)%nat.
Proof.
  intros Hn. induction batch as [|mv rest IH]; intros n w.
  - exists n, w. simpl. split; [reflexivity | lia].
  - cbn [send_loop]. unfold bind at 1.
    destruct (send_movie_to_user_returns (effective_user_id upd) (id mv)
                (Some (effective_chat_id upd)) w Hn) as (b & w1 & ->).
    destruct (IH (if b then S n else n) w1) as (n' & w' & -> & Hle).
    exists n', w'. split; [reflexivity|]. cbn [List.length]. destruct b; lia.
Qed.

(** When no notice is refused and the found-reply goes through, a search
    with results attempts its batch to the end, and the could-not-send
    message follows exactly when the count of successes is zero. *)
Lemma search_and_send_movies_batch (upd : update) (query : string)
      (w w1 : world) (mv : movie) (others : list movie) :
  notices_delivered E ->
  refresh_if_needed E w = (Return tt, w1) ->
  search_cache (movie_cache w1) query = mv :: others ->
  let found := reply_text (TxtFound (S (List.length others)) query) NoMarkup in
  telegram E (trace w1) found = None ->
  exists sent_count w2,
    send_loop upd (firstn 10 (mv :: others)) 0%nat E (extend w1 [Api found])
    = (Return sent_count, w2)
    /\ (sent_count <= 10)%nat
    /\ search_and_send_movies upd query E w
       = if Nat.eqb sent_count 0
         then api (reply_text TxtCouldNotSendAny StartPrivateChatButton) E w2
         else (Return tt, w2).
Proof.
  intros Hn Hrefresh Hresults found Hfound.
  destruct (send_loop_returns upd (firstn 10 (mv :: others)) Hn 0%nat
              (extend w1 [Api found])) as (n & w2 & Hloop & Hle).
  exists n, w2. split; [exact Hloop|]. split.
  - pose proof (firstn_le_length 10 (mv :: others)). lia.
  - unfold search_and_send_movies, bind at 1. rewrite Hrefresh.
    unfold bind at 1, get. rewrite Hresults.
    unfold bind at 1, api at 1. cbn [List.length]. fold found. rewrite Hfound.
    unfold record, bind at 1. rewrite Hloop.
    now destruct (Nat.eqb n 0).
Qed.


End DeliveryFacts.

(** C9. For a movie id that no cached entry has, the delivery returns
    [False] at once: the world is left as it was, so neither the send by
    content reference nor the forward nor any notice was issued. *)
Theorem unknown_id_fails_without_transport
        (E : env) (w : world) (user_id movie_id : Z) (chat_id : option Z) :
  (forall m, In m (movie_cache w) -> id m <> movie_id) ->
  send_movie_to_user user_id movie_id chat_id E w = (Return false, w).
Proof.
  intros H. run. now rewrite (find_movie_none (movie_cache w) movie_id H).
Qed.

Lemma unknown_id_fails_without_transport_witness :
  send_movie_to_user 4242 999 (Some (-100777))
    (env_with t_2024 (inl []) (api_forward_fails Forbidden))
    (world_with [inception; heat] t_2024)
  = (Return false, world_with [inception; heat] t_2024).
Proof.
  apply (unknown_id_fails_without_transport
           (env_with t_2024 (inl []) (api_forward_fails Forbidden))
           (world_with [inception; heat] t_2024) 4242 999 (Some (-100777))).
  intros m [<- | [<- | []]]; discriminate.
Defined.

(** C5. When the cached entry has a content reference and the send by that
    reference raises, whatever the exception, the next call is the forward
    of the archived message with the entry's id; and when that forward goes
    through, the delivery returns [True] with nothing else sent. *)
Theorem failed_file_id_send_falls_back_to_forward
        (E : env) (w : world) (user_id movie_id : Z) (chat_id : option Z)
        (mv : movie) (f : string) (e : exn) :
  find_movie (movie_cache w) movie_id = Some mv ->
  file_id mv = Some f ->
  is_empty f = false ->
  telegram E (trace w) (direct_send user_id mv f) = Some e ->
  (exists r w' rest,
      send_movie_to_user user_id movie_id chat_id E w = (r, w')
      /\ trace w' = trace w ++ Api (direct_send user_id mv f)
                            :: Api (fallback_call E user_id (id mv)) :: rest)
  /\ (telegram E (trace w ++ [Api (direct_send user_id mv f)])
               (fallback_call E user_id (id mv)) = None ->
      send_movie_to_user user_id movie_id chat_id E w
      = (Return true,
         extend w [Api (direct_send user_id mv f);
                   Api (fallback_call E user_id (id mv))])).
Proof.
  intros Hfind Hfile Hf Hdirect.
  destruct (find_movie_id _ _ _ Hfind) as [_ Hid]. rewrite Hid.
  run. rewrite Hfind, Hfile, Hf, Hdirect. cbn [trace extend].
  destruct (telegram E (trace w ++ [Api (direct_send user_id mv f)])
                     (forward_message user_id (STORAGE_CHANNEL_ID E) movie_id))
    as [e2|] eqn:Hfwd.
  - split; [|discriminate].
    destruct (is_BadRequest_or_Forbidden e2);
      (destruct chat_id as [c|]; [destruct (c =? 0)|]);
      cbn [trace extend];
      repeat match goal with
             | |- context [match telegram E ?t ?c with _ => _ end] =>
                 destruct (telegram E t c)
             end;
      do 3 eexists; (split; [reflexivity|]); cbn [trace extend];
      rewrite <- ?app_assoc; cbn [app]; reflexivity.
  - split.
    + do 3 eexists. split; [reflexivity|]. cbn [trace extend].
      now rewrite <- app_assoc.
    + intros _. unfold extend. cbn [trace movie_cache last_cache_refresh].
      now rewrite <- app_assoc.
Qed.

Lemma failed_file_id_send_falls_back_to_forward_witness :
  send_movie_to_user 4242 104 (Some (-100777))
    (env_with t_2024 (inl []) (api_direct_fails (BadRequest WrongFileIdentifier)))
    (world_with [inception; heat] t_2024)
  = (Return true,
     extend (world_with [inception; heat] t_2024)
       [Api (send_video 4242 "BQACAgQAAx0" (Caption "Heat" "Action"));
        Api (forward_message 4242 (-1001234567890) 104)]).
Proof.
  apply (proj2 (failed_file_id_send_falls_back_to_forward
                  (env_with t_2024 (inl [])
                            (api_direct_fails (BadRequest WrongFileIdentifier)))
                  (world_with [inception; heat] t_2024)
                  4242 104 (Some (-100777)) heat "BQACAgQAAx0"
                  (BadRequest WrongFileIdentifier)
                  eq_refl eq_refl eq_refl eq_refl)).
  reflexivity.
Defined.




(** ** The batch of a search *)

(** The batch of the specification: three results, the forward of the second
    raises an error that is not about the recipient, the other two go
    through. The loop counts two successes, the third entry is attempted
    after the failure, and no could-not-send message follows. *)
Example batch_isolation_three_items :
  search_and_send_movies (group_update "matrix in") "matrix in"
    (env_with (after t_2024 0 0 1 0) (inl [])
              (api_forward_of_fails 102 RetryAfter))
    (world_with [inception; the_matrix; matrix_reloaded] t_2024)
  = (Return tt,
     extend (world_with [inception; the_matrix; matrix_reloaded] t_2024)
       [Api (reply_text (TxtFound 3 "matrix in") NoMarkup);
        Api (forward_message 4242 (-1001234567890) 101);
        Api (forward_message 4242 (-1001234567890) 102);
        Api (send_message (-100777) TxtFailedToSendMovie);
        Api (forward_message 4242 (-1001234567890) 103)]).
Proof. reflexivity. Qed.

(** When every forward of the batch raises and the notices go through, each
    entry is attempted and the could-not-send message closes the batch. *)
Example batch_without_success_reports_once :
  search_and_send_movies (group_update "matrix") "matrix"
    (env_with (after t_2024 0 0 1 0) (inl []) (api_forward_fails Forbidden))
    (world_with [inception; the_matrix; matrix_reloaded] t_2024)
  = (Return tt,
     extend (world_with [inception; the_matrix; matrix_reloaded] t_2024)
       [Api (reply_text (TxtFound 2 "matrix") NoMarkup);
        Api (forward_message 4242 (-1001234567890) 102);
        Api (send_message (-100777) TxtStartPrivateChatFirst);
        Api (forward_message 4242 (-1001234567890) 103);
        Api (send_message (-100777) TxtStartPrivateChatFirst);
        Api (reply_text TxtCouldNotSendAny StartPrivateChatButton)]).
Proof. reflexivity. Qed.

(** C6, at the failing input. Two entries match; the forward of the first
    raises [Forbidden] and the notices to the group are refused with
    [RetryAfter]. The exception raised inside the handlers of
    [send_movie_to_user] leaves it, and the batch ends there: the second
    entry is never attempted and no could-not-send message is sent. *)
Theorem refused_notice_aborts_the_batch :
  search_and_send_movies (group_update "matrix") "matrix"
    (env_with (after t_2024 0 0 1 0) (inl [])
              (api_forward_and_notice_fail Forbidden RetryAfter))
    (world_with [inception; the_matrix; matrix_reloaded] t_2024)
  = (Raise RetryAfter,
     extend (world_with [inception; the_matrix; matrix_reloaded] t_2024)
       [Api (reply_text (TxtFound 2 "matrix") NoMarkup);
        Api (forward_message 4242 (-1001234567890) 102);
        Api (send_message (-100777) TxtStartPrivateChatFirst);
        Api (send_message (-100777) TxtFailedToSendMovie)]).
Proof. reflexivity. Qed.

(** ** The minimum length of a query *)

(** C8, counterexample. A text that is just "/" has one character; the
    handler returns on its first test and sends nothing, so the prompt of
    the specification is not sent for every short text. *)
Lemma slash_alone_gets_no_prompt :
  handle_message (group_update "/")
    (env_with t_2024 (inl []) api_ok) (world_with [inception] t_2024)
  = (Return tt, world_with [inception] t_2024)
  /\ ~ short_text_gets_prompt.
Proof.
  split; [reflexivity|].
  intros H.
  destruct (H (env_with t_2024 (inl []) api_ok) (world_with [inception] t_2024)
              (group_update "/") ltac:(simpl; lia)) as (r & w' & Hrun & Htr).
  vm_compute in Hrun. injection Hrun as _ <-. discriminate.
Qed.

(** C8, amended. A text of fewer than two characters never reaches the
    search: when it starts with "/" the text handler returns without any
    reply, otherwise its only action is the minimum-length prompt; the inline
    handler returns without answering. In both the cache is not read, not
    refreshed and not changed. *)
Theorem short_query_never_reaches_search
        (E : env) (w : world) (upd : update) (inline_query : string) :
  (String.length (message_text_of upd) < 2)%nat ->
  (String.length inline_query < 2)%nat ->
  handle_message upd E w
  = (if startswith "/" (message_text_of upd)
     then (Return tt, w)
     else api (reply_text TxtAtLeastTwoCharacters
                          (MainMenuKeyboard (effective_user_id upd))) E w)
  /\ (exists r w',
        handle_message upd E w = (r, w')
        /\ movie_cache w' = movie_cache w
        /\ last_cache_refresh w' = last_cache_refresh w
        /\ ~ In SelectMovies (skipn (List.length (trace w)) (trace w')))
  /\ inline_query_handler inline_query E w = (Return tt, w).
Proof.
  intros Htext Hinline.
  assert (Hrun : handle_message upd E w
                 = (if startswith "/" (message_text_of upd)
                    then (Return tt, w)
                    else api (reply_text TxtAtLeastTwoCharacters
                                (MainMenuKeyboard (effective_user_id upd))) E w)).
  { unfold handle_message.
    destruct (startswith "/" (message_text_of upd)); [reflexivity|].
    destruct (Nat.leb_spec 2 (String.length (message_text_of upd))); [lia | reflexivity]. }
  split; [exact Hrun|]. split.
  - rewrite Hrun. destruct (startswith "/" (message_text_of upd)).
    + exists (Return tt), w. repeat split.
      rewrite skipn_all. intros [].
    + unfold api, record.
      destruct (telegram E (trace w) _); do 2 eexists;
        (split; [reflexivity|]); cbn [extend movie_cache last_cache_refresh trace];
        (repeat split);
        rewrite skipn_app, skipn_all, Nat.sub_diag; simpl;
        intros [Hev | []]; discriminate.
  - unfold inline_query_handler.
    destruct (Nat.ltb_spec (String.length inline_query) 2); [|lia].
    now rewrite orb_true_r.
Qed.

Lemma short_query_never_reaches_search_witness :
  handle_message (group_update "x")
    (env_with t_2024 (inl []) api_ok) (world_with [inception] t_2024)
  = (Return tt,
     extend (world_with [inception] t_2024)
       [Api (reply_text TxtAtLeastTwoCharacters (MainMenuKeyboard 4242))])
  /\ inline_query_handler "x"
       (env_with t_2024 (inl []) api_ok) (world_with [inception] t_2024)
     = (Return tt, world_with [inception] t_2024).
Proof.
  pose proof (short_query_never_reaches_search
                (env_with t_2024 (inl []) api_ok) (world_with [inception] t_2024)
                (group_update "x") "x"
                ltac:(simpl; lia) ltac:(simpl; lia)) as (H1 & _ & H2).
  split; [exact H1 | exact H2].
Defined.

(** ** Queries of whitespace only *)

(** C10. A query of at least two characters that are all whitespace passes
    the length test of the text handler and reaches the search; its term
    list is empty, so no entry of any cache matches, and after the
    check-and-refresh the only action is the no-movies-found reply. *)
Theorem whitespace_query_matches_nothing
        (E : env) (w : world) (upd : update) :
  let query := message_text_of upd in
  (2 <= String.length query)%nat ->
  (forall c, In c (list_ascii_of_string query) -> isspace c = true) ->
  split (lower query) = []
  /\ (forall cache, search_cache cache query = [])
  /\ handle_message upd E w = search_and_send_movies upd query E w
  /\ exists w1,
       refresh_if_needed E w = (Return tt, w1)
       /\ search_and_send_movies upd query E w
          = api (reply_text (TxtNoMoviesFound query)
                            (MainMenuKeyboard (effective_user_id upd))) E w1.
Proof.
  intros query Hlen Hspace.
  assert (Hterms : split (lower query) = []).
  { rewrite split_lower. unfold split. now rewrite split_from_spaces. }
  split; [exact Hterms|]. split.
  - intros cache. now apply search_cache_no_terms.
  - split.
    + unfold handle_message. fold query.
      destruct query as [|c q] eqn:Hq; [simpl in Hlen; lia|].
      assert (Hc : isspace c = true) by (apply Hspace; now left).
      assert (Hslash : startswith "/" (String c q) = false).
      { cbn [startswith].
        destruct (Ascii.eqb_spec "/"%char c) as [Heq|Hne];
          [subst c; discriminate Hc | reflexivity]. }
      rewrite Hslash.
      destruct (Nat.leb_spec 2 (String.length (String c q))); [reflexivity | lia].
    + destruct (refresh_if_needed_returns E w) as [w1 Hw1].
      exists w1. split; [exact Hw1|].
      unfold search_and_send_movies, bind at 1. rewrite Hw1.
      unfold bind, get. now rewrite search_cache_no_terms.
Qed.

Lemma whitespace_query_matches_nothing_witness :
  search_cache [inception; the_matrix] "  " = []
  /\ handle_message (group_update "  ")
       (env_with (after t_2024 0 0 1 0) (inl []) api_ok)
       (world_with [inception; the_matrix] t_2024)
     = search_and_send_movies (group_update "  ") "  "
         (env_with (after t_2024 0 0 1 0) (inl []) api_ok)
         (world_with [inception; the_matrix] t_2024).
Proof.
  pose proof (whitespace_query_matches_nothing
                (env_with (after t_2024 0 0 1 0) (inl []) api_ok)
                (world_with [inception; the_matrix] t_2024)
                (group_update "  ")
                ltac:(simpl; lia)
                ltac:(simpl; intros c [<- | [<- | []]]; reflexivity))
    as (_ & Hsearch & Hhandle & _).
  split; [apply Hsearch | exact Hhandle].
Defined.

(** ** Staleness on the read paths *)

(** C1, at the failing input. The cache was refreshed at 2024-01-01 00:00:00
    and the request comes at 2024-01-02 00:00:10, one day and ten seconds
    later: the elapsed time exceeds the interval of 300 seconds, yet the
    test on the [seconds] field reads 10 and reports no refresh. The search,
    the listing and the category browse all answer from the old cache, which
    lacks the entry "Heat" the table holds by now, and none issues the
    SELECT. *)
Theorem day_old_cache_is_not_refreshed :
  let last := t_2024 in
  let now := after t_2024 1 0 0 10 in
  let E := env_with now (inl (map row_of [inception; heat])) api_ok in
  let w := world_with [inception] last in
  total_microseconds (datetime_sub now last) > CACHE_REFRESH_INTERVAL * US_PER_SECOND
  /\ seconds (datetime_sub now last) = 10
  /\ refresh_needed now last = false
  /\ search_and_send_movies (group_update "heat") "heat" E w
     = (Return tt,
        extend w [Api (reply_text (TxtNoMoviesFound "heat") (MainMenuKeyboard 4242))])
  /\ list_all_movies 4242 E w
     = (Return tt,
        extend w [Api (edit_message_text (TxtLibraryStats 1 1 last)
                                         (MainMenuKeyboard 4242))])
  /\ show_category_movies "Action" E w
     = (Return tt,
        extend w [SelectCategories;
                  Api (edit_message_text (TxtNoMoviesInCategory "Action")
                                         (CategoryKeyboard []))]).
Proof. repeat split. Qed.

(** The same request five minutes and one second after the refresh does
    read the table again and finds the new entry. *)
Example five_minute_old_cache_is_refreshed :
  let last := t_2024 in
  let now := after t_2024 0 0 5 1 in
  let E := env_with now (inl (map row_of [inception; heat]))
                    (api_forward_fails TimedOut) in
  refresh_needed now last = true
  /\ search_and_send_movies (group_update "heat") "heat" E (world_with [inception] last)
     = (Return tt,
        {| movie_cache := [inception; heat];
           last_cache_refresh := now;
           trace := [SelectMovies;
                     Api (reply_text (TxtFound 1 "heat") NoMarkup);
                     Api (send_video 4242 "BQACAgQAAx0" (Caption "Heat" "Action"))] |}).
Proof. split; reflexivity. Qed.

(** ** Duplicate titles *)

Section DuplicateFacts.

Lemma count_in_bump (t t' : string) (groups : list (string * nat)) :
  count_in (bump t groups) t'
  = if String.eqb t t' then S (count_in groups t') else count_in groups t'.
Proof.
  induction groups as [|[k n] rest IH]; simpl.
  - now destruct (String.eqb t t').
  - destruct (String.eqb_spec k t) as [->|Hkt]; simpl.
    + now destruct (String.eqb_spec t t').
    + destruct (String.eqb_spec k t') as [->|Hkt'].
      * destruct (String.eqb_spec t t') as [->|]; [now destruct Hkt | reflexivity].
      * exact IH.
Qed.

Lemma bump_In (t : string) (groups : list (string * nat)) (k : string) (n : nat) :
  In (k, n) (bump t groups) ->
  (0 < n)%nat /\ k = t \/ In (k, n) groups.
Proof.
  induction groups as [|[k' n'] rest IH]; simpl.
  - intros [H | []]. injection H as <- <-. left. split; [lia | reflexivity].
  - destruct (String.eqb_spec k' t) as [->|Hne]; simpl.
    + intros [H | H]; [injection H as <- <-; left; split; [lia | reflexivity] | now right; right].
    + intros [H | H]; [now right; left|].
      destruct (IH H) as [Hl | Hr]; [now left | now right; right].
Qed.

Lemma bump_keys (t : string) (groups : list (string * nat)) :
  map fst (bump t groups)
  = if in_dec string_dec t (map fst groups)
    then map fst groups else map fst groups ++ [t].
Proof.
  induction groups as [|[k n] rest IH]; simpl; [reflexivity|].
  destruct (String.eqb_spec k t) as [->|Hne]; simpl.
  - destruct (string_dec t t) as [Heq|Hn]; [reflexivity | now destruct Hn].
  - rewrite IH. destruct (string_dec k t) as [Heq|Hkt]; [now destruct Hne|].
    now destruct (in_dec string_dec t (map fst rest)).
Qed.

Lemma bump_wf (t : string) (groups : list (string * nat)) :
  groups_wf groups -> groups_wf (bump t groups).
Proof.
  intros [Hnd Hpos]. split.
  - rewrite bump_keys. destruct (in_dec string_dec t (map fst groups)) as [|Hn];
      [exact Hnd|].
    apply NoDup_app; [exact Hnd | repeat constructor; intros [] | ].
    intros x Hx [<- | []]. exact (Hn Hx).
  - intros k n H. destruct (bump_In _ _ _ _ H) as [[Hn _] | Hin];
      [exact Hn | exact (Hpos k n Hin)].
Qed.

(** In well-formed groups a pair is present exactly when it is the count
    of its title and that count is positive. *)
Lemma groups_wf_In (groups : list (string * nat)) (t : string) (c : nat) :
  groups_wf groups ->
  (In (t, c) groups <-> c = count_in groups t /\ (0 < c)%nat).
Proof.
  induction groups as [|[k n] rest IH]; intros [Hnd Hpos]; simpl.
  - split; [intros [] | lia].
  - inversion Hnd as [|? ? Hk Hnd']; subst.
    assert (Hwf : groups_wf rest).
    { split; [exact Hnd' | intros t0 n0 H0; apply (Hpos t0 n0); now right]. }
    destruct (String.eqb_spec k t) as [->|Hne].
    + split.
      * intros [H | H].
        -- injection H as <-. split; [reflexivity|]. apply (Hpos t n). now left.
        -- destruct Hk. apply in_map_iff. now exists (t, c).
      * intros [-> _]. now left.
    + rewrite <- (IH Hwf). split.
      * intros [H | H]; [injection H as H _; now destruct Hne | exact H].
      * intros H. now right.
Qed.

Lemma group_by_title_from (rows : list movie_row) (groups : list (string * nat)) :
  groups_wf groups ->
  let result := fold_left (fun g row => bump (row_title row) g) rows groups in
  groups_wf result
  /\ forall t, count_in result t = (count_in groups t + rows_titled t rows)%nat.
Proof.
  revert groups. induction rows as [|row rest IH]; intros groups Hwf; simpl.
  - split; [exact Hwf | intros t; unfold rows_titled; simpl; lia].
  - destruct (IH (bump (row_title row) groups) (bump_wf _ _ Hwf)) as [Hwf' Hcount].
    split; [exact Hwf'|]. intros t. rewrite Hcount, count_in_bump.
    unfold rows_titled. simpl.
    destruct (String.eqb_spec (row_title row) t) as [Heq|Hne];
      destruct (string_dec (row_title row) t); try contradiction; lia.
Qed.

Lemma group_by_title_counts (rows : list movie_row) :
  groups_wf (group_by_title rows)
  /\ forall t, count_in (group_by_title rows) t = rows_titled t rows.
Proof.
  assert (Hnil : groups_wf []).
  { split; [constructor | intros t n []]. }
  destruct (group_by_title_from rows [] Hnil) as [Hwf Hc].
  split; [exact Hwf | intros t; exact (Hc t)].
Qed.

(** The HAVING filter keeps the titles of the groups distinct. *)
Lemma having_count_gt_1_distinct (groups : list (string * nat)) :
  NoDup (map fst groups) -> NoDup (map fst (having_count_gt_1 groups)).
Proof.
  unfold having_count_gt_1.
  induction groups as [|[k n] rest IH]; intros Hnd; cbn [filter map fst snd].
  - constructor.
  - inversion Hnd as [|? ? Hk Hrest]; subst.
    destruct (1 <? n)%nat; [|exact (IH Hrest)].
    cbn [map fst]. constructor; [|exact (IH Hrest)].
    intros Hin. apply Hk.
    apply in_map_iff in Hin. destruct Hin as ([k' n'] & Hfst & Hin).
    apply filter_In in Hin. apply in_map_iff. exists (k', n'). tauto.
Qed.

End DuplicateFacts.

(** C7. On the rows of the table, the duplicate query returns one pair per
    title and exactly the pairs (title, count) where the count is the number
    of rows whose title is that very string, compared without any folding of
    case or whitespace, and the count exceeds 1; the rows ("A",1), ("A",2),
    ("B",3) give the single group ("A", 2), and titles that differ only by
    case or a trailing space are not grouped. *)
Theorem duplicates_are_exact_title_groups :
  (forall (rows : list movie_row) (t : string) (c : nat),
      In (t, c) (find_duplicate_movies (inl rows))
      <-> c = rows_titled t rows /\ (1 < c)%nat)
  /\ (forall rows : list movie_row,
        NoDup (map fst (find_duplicate_movies (inl rows))))
  /\ find_duplicate_movies (inl rows_A_A_B) = [("A"%string, 2%nat)]
  /\ find_duplicate_movies (inl rows_heat_variants) = [].
Proof.
  split; [|split; [|split; reflexivity]].
  - intros rows t c. unfold find_duplicate_movies, having_count_gt_1.
    destruct (group_by_title_counts rows) as [Hwf Hcount].
    rewrite filter_In, (groups_wf_In _ t c Hwf), Hcount. cbn [snd].
    rewrite Nat.ltb_lt. lia.
  - intros rows. unfold find_duplicate_movies.
    apply having_count_gt_1_distinct. apply (group_by_title_counts rows).
Qed.

(* ====================================================================== *)
(** * Further properties of the code *)
(* ====================================================================== *)

(** ** Search: words of a query *)

Section WordFacts.

Local Open Scope string_scope.

Lemma sapp_assoc (a b c : string) : (a ++ b) ++ c = a ++ (b ++ c).
Proof. induction a as [|x a IH]; simpl; [reflexivity | now rewrite IH]. Qed.

Lemma sapp_empty_r (a : string) : a ++ EmptyString = a.
Proof. induction a as [|x a IH]; simpl; [reflexivity | now rewrite IH]. Qed.

(** Every word the scan yields is a slice of what it scanned. *)
Lemma split_from_slices (s word pre t : string) :
  In t (split_from word s) ->
  exists a b, pre ++ word ++ s = a ++ t ++ b.
Proof.
  revert word pre. induction s as [|c s IH]; intros word pre; simpl.
  - destruct (is_empty word); [intros [] | intros [<- | []]].
    now exists pre, EmptyString.
  - destruct (isspace c).
    + destruct (is_empty word) eqn:Hw.
      * intros Hin. apply (proj1 (is_empty_true word)) in Hw. subst word.
        destruct (IH EmptyString (pre ++ String c EmptyString) Hin) as (a & b & H).
        exists a, b. rewrite <- H. simpl. now rewrite sapp_assoc.
      * intros [<- | Hin]; [now exists pre, (String c s)|].
        destruct (IH EmptyString (pre ++ word ++ String c EmptyString) Hin)
          as (a & b & H).
        exists a, b. rewrite <- H. simpl. now rewrite !sapp_assoc.
    + intros Hin.
      destruct (IH (word ++ String c EmptyString) pre Hin) as (a & b & H).
      exists a, b. rewrite <- H. now rewrite !sapp_assoc.
Qed.

Lemma split_terms_in (s t : string) : In t (split s) -> str_in t s = true.
Proof.
  intros Hin. apply str_in_iff.
  destruct (split_from_slices s EmptyString EmptyString t Hin) as (a & b & H).
  now exists a, b.
Qed.

Lemma split_from_word_nonempty (s word : string) :
  is_empty word = false -> split_from word s <> [].
Proof.
  revert word. induction s as [|c s IH]; intros word Hw; simpl.
  - now rewrite Hw.
  - destruct (isspace c).
    + now rewrite Hw.
    + apply IH. now destruct word.
Qed.

Lemma split_has_word (s : string) : has_word s -> split s <> [].
Proof.
  unfold split. generalize EmptyString as word.
  induction s as [|c s IH]; intros word (d & Hin & Hd); simpl in *; [destruct Hin|].
  destruct Hin as [<- | Hin].
  - rewrite Hd. apply split_from_word_nonempty. now destruct word.
  - destruct (isspace c).
    + destruct (is_empty word); [apply IH; now exists d|discriminate].
    + apply IH. now exists d.
Qed.

Lemma has_word_lower (s : string) : has_word s -> has_word (lower s).
Proof.
  intros (c & Hin & Hc). exists (lower_char c). split.
  - induction s as [|d s IH]; simpl in *; [destruct Hin|].
    destruct Hin as [<- | Hin]; [now left | right; now apply IH].
  - now rewrite isspace_lower_char.
Qed.

(** The scan of two strings joined by a whitespace character. *)
Lemma split_from_join (a b word : string) (sp : ascii) :
  isspace sp = true ->
  split_from word (a ++ String sp b) = (split_from word a ++ split b)%list.
Proof.
  intros Hsp. revert word. induction a as [|c a IH]; intros word; simpl.
  - rewrite Hsp. now destruct (is_empty word).
  - destruct (isspace c).
    + destruct (is_empty word); simpl; now rewrite IH.
    + apply IH.
Qed.

Lemma split_join (a b : string) :
  split (a ++ String " " b) = (split a ++ split b)%list.
Proof. now apply split_from_join. Qed.

End WordFacts.

Lemma title_matches_join (q1 q2 : string) (m : movie) :
  title_matches (q1 ++ String " " q2)%string m
  = title_matches q1 m || title_matches q2 m.
Proof.
  unfold title_matches, any_term_in.
  rewrite lower_app. cbn [lower].
  change (lower_char " ") with " "%char.
  now rewrite split_join, existsb_app.
Qed.

Lemma search_finds_own_title (cache : list movie) (m : movie) :
  In m cache -> has_word (title m) -> In m (search_cache cache (title m)).
Proof.
  intros Hin Hword. rewrite search_cache_filter. apply filter_In.
  split; [exact Hin|].
  unfold title_matches, any_term_in.
  destruct (split (lower (title m))) as [|t rest] eqn:Hs.
  - destruct (split_has_word _ (has_word_lower _ Hword) Hs).
  - apply existsb_exists. exists t. split; [now left|].
    apply split_terms_in. rewrite Hs. now left.
Qed.

(** X1. An entry whose title has at least one character that is not
    whitespace is among the results of the query that is its own title. *)
Theorem entry_is_found_by_its_own_title (cache : list movie) (m : movie) :
  In m cache ->
  has_word (title m) ->
  In m (search_cache cache (title m)).
Proof. apply search_finds_own_title. Qed.

Lemma entry_is_found_by_its_own_title_witness :
  In the_matrix (search_cache [inception; the_matrix; matrix_reloaded] "The Matrix").
Proof.
  apply (entry_is_found_by_its_own_title
           [inception; the_matrix; matrix_reloaded] the_matrix).
  - simpl. tauto.
  - exists "T"%char. split; [simpl; tauto | reflexivity].
Defined.

(** X2. The results of two queries joined by a space are exactly the
    entries either query finds, in cache order: every result of the first
    query is kept, and the order of the two parts does not matter. *)
Theorem joined_query_finds_the_union (cache : list movie) (q1 q2 : string) :
  search_cache cache (q1 ++ String " " q2)%string
  = filter (fun m => title_matches q1 m || title_matches q2 m) cache
  /\ (forall m, In m (search_cache cache q1) ->
                In m (search_cache cache (q1 ++ String " " q2)%string))
  /\ search_cache cache (q1 ++ String " " q2)%string
     = search_cache cache (q2 ++ String " " q1)%string.
Proof.
  assert (Hjoin : forall a b,
             search_cache cache (a ++ String " " b)%string
             = filter (fun m => title_matches a m || title_matches b m) cache).
  { intros a b. rewrite search_cache_filter. apply filter_ext.
    intros m. apply title_matches_join. }
  split; [apply Hjoin|]. split.
  - intros m. rewrite Hjoin, search_cache_filter, !filter_In.
    intros [Hin Hm]. split; [exact Hin | now rewrite Hm].
  - rewrite !Hjoin. apply filter_ext. intros m. apply orb_comm.
Qed.

(** ** Delivery: what one call and one batch can do *)

Lemma grows_by_refl (w : world) : grows_by w w [].
Proof. unfold grows_by. now rewrite app_nil_r. Qed.

Lemma grows_by_trans (w w1 w2 : world) (a b : list event) :
  grows_by w w1 a -> grows_by w1 w2 b -> grows_by w w2 (a ++ b).
Proof.
  intros (Hc1 & Hl1 & Ht1) (Hc2 & Hl2 & Ht2). unfold grows_by.
  rewrite Hc2, Hl2, Ht2, Hc1, Hl1, Ht1. now rewrite app_assoc.
Qed.

Lemma grows_by_extend (w : world) (evs : list event) : grows_by w (extend w evs) evs.
Proof. now unfold grows_by. Qed.

Lemma count_events_app (p : event -> bool) (a b : list event) :
  count_events p (a ++ b) = (count_events p a + count_events p b)%nat.
Proof. unfold count_events. now rewrite filter_app, length_app. Qed.

(** One delivery leaves the cache as it is and makes at most four Bot API
    calls: at most one send by content reference, at most one forward, and
    never a SELECT. *)
Lemma send_movie_to_user_shape (E : env) (w : world)
      (user_id movie_id : Z) (chat_id : option Z) :
  exists r w' evs,
    send_movie_to_user user_id movie_id chat_id E w = (r, w')
    /\ grows_by w w' evs
    /\ (List.length evs <= 4)%nat
    /\ (count_events is_forward evs <= 1)%nat
    /\ (count_events is_direct evs <= 1)%nat
    /\ count_events is_select_movies evs = 0%nat.
Proof.
  unfold send_movie_to_user, forward_fallback, try_file_id, notify, direct_send,
         catch_if, bind, ret, ask, get, api, record.
  cbn [is_Exception].
  destruct (find_movie (movie_cache w) movie_id) as [mv|].
  - destruct (file_id mv) as [f|]; [destruct (is_empty f)|];
      try destruct (String.eqb (media_type mv) "video");
      delivery_cases E;
      do 3 eexists; (split; [reflexivity|]); (split; [grown|]);
      cbn; lia.
  - exists (Return false), w, []. split; [reflexivity|].
    split; [apply grows_by_refl | cbn; lia].
Qed.

Lemma api_shape (E : env) (w : world) (c : call) :
  exists r, api c E w = (r, extend w [Api c]).
Proof. unfold api, record. destruct (telegram E (trace w) c); eexists; reflexivity. Qed.

Lemma send_loop_shape (E : env) (upd : update) (batch : list movie) :
  forall (n : nat) (w : world),
  exists r w' evs,
    send_loop upd batch n E w = (r, w')
    /\ grows_by w w' evs
    /\ (List.length evs <= 4 * List.length batch)%nat
    /\ (count_events is_forward evs <= List.length batch)%nat
    /\ (count_events is_direct evs <= List.length batch)%nat
    /\ count_events is_select_movies evs = 0%nat.
Proof.
  induction batch as [|mv rest IH]; intros n w.
  - exists (Return n), w, []. split; [reflexivity|].
    split; [apply grows_by_refl | cbn; lia].
  - cbn [send_loop]. unfold bind at 1.
    destruct (send_movie_to_user_shape E w (effective_user_id upd) (id mv)
                (Some (effective_chat_id upd)))
      as (r1 & w1 & evs1 & -> & Hg1 & Hl1 & Hf1 & Hd1 & Hs1).
    destruct r1 as [b|e].
    + destruct (IH (if b then S n else n) w1)
        as (r2 & w2 & evs2 & -> & Hg2 & Hl2 & Hf2 & Hd2 & Hs2).
      exists r2, w2, (evs1 ++ evs2). split; [reflexivity|].
      split; [exact (grows_by_trans _ _ _ _ _ Hg1 Hg2)|].
      rewrite length_app, !count_events_app. cbn [List.length]. lia.
    + exists (Raise e), w1, evs1. split; [reflexivity|].
      split; [exact Hg1 | cbn [List.length]; lia].
Qed.

Lemma refresh_if_needed_shape (E : env) (w : world) :
  exists w1 evs,
    refresh_if_needed E w = (Return tt, w1)
    /\ trace w1 = trace w ++ evs
    /\ (List.length evs <= 1)%nat
    /\ count_events is_forward evs = 0%nat
    /\ count_events is_direct evs = 0%nat
    /\ (count_events is_select_movies evs <= 1)%nat.
Proof.
  unfold refresh_if_needed, bind, ask, get, ret.
  destruct (refresh_needed _ _).
  - unfold refresh_movie_cache.
    destruct (movies_table E (trace w)) as [rows|[]];
      do 2 eexists; (split; [reflexivity|]);
      (split; [cbn [trace record extend]; reflexivity | cbn; lia]).
  - exists w, []. split; [reflexivity|].
    split; [now rewrite app_nil_r | cbn; lia].
Qed.

(** Whatever the outside answers, one text search reads the table at most
    once, forwards at most ten messages and sends at most ten files by
    content reference, in at most 43 outside actions. *)
Lemma search_and_send_movies_shape (E : env) (w : world) (upd : update)
      (query : string) :
  exists r w' evs,
    search_and_send_movies upd query E w = (r, w')
    /\ trace w' = trace w ++ evs
    /\ (List.length evs <= 43)%nat
    /\ (count_events is_forward evs <= 10)%nat
    /\ (count_events is_direct evs <= 10)%nat
    /\ (count_events is_select_movies evs <= 1)%nat.
Proof.
  destruct (refresh_if_needed_shape E w)
    as (w1 & evs1 & Hr & Ht1 & Hl1 & Hf1 & Hd1 & Hs1).
  unfold search_and_send_movies, bind at 1. rewrite Hr.
  unfold bind at 1, get.
  destruct (search_cache (movie_cache w1) query) as [|mv others] eqn:Hres.
  - destruct (api_shape E w1 (reply_text (TxtNoMoviesFound query)
                                (MainMenuKeyboard (effective_user_id upd))))
      as [r ->].
    do 3 eexists. split; [reflexivity|]. cbn [trace extend].
    split; [rewrite Ht1, <- app_assoc; reflexivity|].
    rewrite length_app, !count_events_app. cbn. lia.
  - set (found := reply_text (TxtFound (List.length (mv :: others)) query) NoMarkup).
    unfold bind at 1.
    destruct (api_shape E w1 found) as [r Hfound]. rewrite Hfound.
    destruct r as [[]|e].
    + unfold bind at 1.
      destruct (send_loop_shape E upd (firstn 10 (mv :: others)) 0%nat
                  (extend w1 [Api found]))
        as (r2 & w2 & evs2 & -> & (_ & _ & Ht2) & Hl2 & Hf2 & Hd2 & Hs2).
      pose proof (firstn_le_length 10 (mv :: others)) as Hten.
      destruct r2 as [n|e].
      * destruct (Nat.eqb n 0).
        -- destruct (api_shape E w2 (reply_text TxtCouldNotSendAny
                                                StartPrivateChatButton))
             as [r3 ->].
           do 3 eexists. split; [reflexivity|]. cbn [trace extend] in *.
           split; [rewrite Ht2, Ht1, <- !app_assoc; reflexivity|].
           rewrite !length_app, !count_events_app. cbn. lia.
        -- do 3 eexists. split; [reflexivity|]. cbn [trace extend] in *.
           split; [rewrite Ht2, Ht1, <- !app_assoc; reflexivity|].
           rewrite !length_app, !count_events_app. cbn. lia.
      * do 3 eexists. split; [reflexivity|]. cbn [trace extend] in *.
        split; [rewrite Ht2, Ht1, <- !app_assoc; reflexivity|].
        rewrite !length_app, !count_events_app. cbn. lia.
    + do 3 eexists. split; [reflexivity|]. cbn [trace extend].
      split; [rewrite Ht1, <- app_assoc; reflexivity|].
      rewrite length_app, !count_events_app. cbn. lia.
Qed.

(** X3. Whatever the outside answers, one call of [send_movie_to_user]
    leaves the cache and the time of its last refresh as they are, never
    reads the table, and makes at most four Bot API calls, of which at most
    one is a send by content reference and at most one a forward. *)
Theorem delivery_keeps_cache_and_makes_at_most_four_calls
        (E : env) (w : world) (user_id movie_id : Z) (chat_id : option Z) :
  exists r w' evs,
    send_movie_to_user user_id movie_id chat_id E w = (r, w')
    /\ grows_by w w' evs
    /\ (List.length evs <= 4)%nat
    /\ (count_events is_forward evs <= 1)%nat
    /\ (count_events is_direct evs <= 1)%nat
    /\ count_events is_select_movies evs = 0%nat.
Proof. apply send_movie_to_user_shape. Qed.

(** X4. Whatever the outside answers and however many entries match, one
    text search reads the table at most once, forwards at most ten messages
    and sends at most ten files by content reference; it ends after at most
    43 outside actions, with a result or an exception. *)
Theorem text_search_attempts_at_most_ten_deliveries
        (E : env) (w : world) (upd : update) (query : string) :
  exists r w' evs,
    search_and_send_movies upd query E w = (r, w')
    /\ trace w' = trace w ++ evs
    /\ (List.length evs <= 43)%nat
    /\ (count_events is_forward evs <= 10)%nat
    /\ (count_events is_direct evs <= 10)%nat
    /\ (count_events is_select_movies evs <= 1)%nat.
Proof. apply search_and_send_movies_shape. Qed.

(** X5. When the cached entry has a non-empty content reference and the send
    by that reference is accepted, the delivery returns [True] after that
    single call: the archive channel is not touched and no notice is sent. *)
Theorem accepted_file_id_send_is_the_only_call
        (E : env) (w : world) (user_id movie_id : Z) (chat_id : option Z)
        (mv : movie) (f : string) :
  find_movie (movie_cache w) movie_id = Some mv ->
  file_id mv = Some f ->
  is_empty f = false ->
  telegram E (trace w) (direct_send user_id mv f) = None ->
  send_movie_to_user user_id movie_id chat_id E w
  = (Return true, extend w [Api (direct_send user_id mv f)]).
Proof.
  intros Hfind Hfile Hf Hsend. run. now rewrite Hfind, Hfile, Hf, Hsend.
Qed.

Lemma accepted_file_id_send_is_the_only_call_witness :
  send_movie_to_user 4242 104 (Some (-100777))
    (env_with t_2024 (inl []) (api_forward_fails Forbidden))
    (world_with [inception; heat] t_2024)
  = (Return true,
     extend (world_with [inception; heat] t_2024)
       [Api (send_video 4242 "BQACAgQAAx0" (Caption "Heat" "Action"))]).
Proof.
  apply (accepted_file_id_send_is_the_only_call
           (env_with t_2024 (inl []) (api_forward_fails Forbidden))
           (world_with [inception; heat] t_2024)
           4242 104 (Some (-100777)) heat "BQACAgQAAx0"
           eq_refl eq_refl eq_refl eq_refl).
Defined.

(** X6. [send_movie_to_user] returns [True] only when the last call it made
    was a send by content reference or a forward to the user that the Bot
    API accepted, for an id that is in the cache. *)
Theorem delivery_reports_success_only_after_an_accepted_send
        (E : env) (w w' : world) (user_id movie_id : Z) (chat_id : option Z) :
  send_movie_to_user user_id movie_id chat_id E w = (Return true, w') ->
  exists mv pre c,
    find_movie (movie_cache w) movie_id = Some mv
    /\ trace w' = trace w ++ pre ++ [Api c]
    /\ telegram E (trace w ++ pre) c = None
    /\ (is_direct (Api c) = true \/ is_forward (Api c) = true).
Proof.
  unfold send_movie_to_user, forward_fallback, try_file_id, notify, direct_send,
         catch_if, bind, ret, ask, get, api, record.
  cbn [is_Exception]. intros H.
  destruct (find_movie (movie_cache w) movie_id) as [mv|]; [|discriminate].
  exists mv.
  destruct (file_id mv) as [f|]; [destruct (is_empty f)|];
    try destruct (String.eqb (media_type mv) "video");
    repeat match type of H with
           | context [match telegram E ?t ?c with _ => _ end] =>
               destruct (telegram E t c) eqn:?
           | context [if is_BadRequest_or_Forbidden ?e then _ else _] =>
               destruct (is_BadRequest_or_Forbidden e)
           | context [if (?c =? 0) then _ else _] => destruct (c =? 0)
           | context [match ?o with Some _ => _ | None => _ end] =>
               is_var o; destruct o
           end;
    cbn [fst snd trace extend] in *;
    try discriminate;
    injection H as <-; cbn [trace extend];
    match goal with
    | |- exists pre c, _ /\ (?t ++ [Api ?a]) ++ [Api ?b] = _ /\ _ =>
        exists [Api a], b
    | |- exists pre c, _ /\ ?t ++ [Api ?a] = _ /\ _ =>
        exists [], a
    end;
    (split; [reflexivity|]);
    (split; [rewrite <- ?app_assoc; reflexivity|]);
    (split; [rewrite ?app_nil_r; assumption | cbn; tauto]).
Qed.

Lemma delivery_reports_success_only_after_an_accepted_send_witness :
  exists mv pre c,
    find_movie [inception; heat] 101 = Some mv
    /\ trace (extend (world_with [inception; heat] t_2024)
                [Api (forward_message 4242 (-1001234567890) 101)])
       = [] ++ pre ++ [Api c]
    /\ api_ok ([] ++ pre) c = None
    /\ (is_direct (Api c) = true \/ is_forward (Api c) = true).
Proof.
  apply (delivery_reports_success_only_after_an_accepted_send
           (env_with t_2024 (inl []) api_ok)
           (world_with [inception; heat] t_2024)
           (extend (world_with [inception; heat] t_2024)
              [Api (forward_message 4242 (-1001234567890) 101)])
           4242 101 (Some (-100777))).
  reflexivity.
Defined.

Lemma find_movie_unique (cache : list movie) (mv : movie) :
  NoDup (map id cache) -> In mv cache -> find_movie cache (id mv) = Some mv.
Proof.
  unfold find_movie. induction cache as [|m rest IH]; intros Hnd Hin; [destruct Hin|].
  inversion Hnd as [|? ? Hm Hrest]; subst. cbn [find].
  destruct Hin as [-> | Hin].
  - now rewrite Z.eqb_refl.
  - destruct (Z.eqb_spec (id m) (id mv)) as [Heq|Hne]; [|now apply IH].
    destruct Hm. rewrite Heq. now apply in_map.
Qed.

(** X7. When no two cached entries share an id, the entry that
    [send_movie_to_user] looks up for the id of a search result is that very
    result, so the batch delivers the entries the search found. *)
Theorem unique_ids_deliver_the_found_entry
        (cache : list movie) (query : string) (mv : movie) :
  NoDup (map id cache) ->
  In mv (search_cache cache query) ->
  find_movie cache (id mv) = Some mv.
Proof.
  intros Hnd Hin. rewrite search_cache_filter in Hin.
  apply filter_In in Hin. now apply find_movie_unique.
Qed.

Lemma unique_ids_deliver_the_found_entry_witness :
  find_movie [inception; the_matrix; matrix_reloaded] (id matrix_reloaded)
  = Some matrix_reloaded.
Proof.
  apply (unique_ids_deliver_the_found_entry
           [inception; the_matrix; matrix_reloaded] "matrix" matrix_reloaded).
  - repeat constructor; simpl; intros H; intuition discriminate.
  - simpl. tauto.
Defined.

(** ** The cache: what a refresh stores, and when a read path refreshes *)

Lemma or_document_nonempty (o : option string) : or_document o <> EmptyString.
Proof.
  destruct o as [s|]; simpl; [|discriminate].
  destruct s; simpl; discriminate.
Qed.

Lemma or_document_keeps (s : string) :
  s <> EmptyString -> or_document (Some s) = s.
Proof. destruct s; simpl; [intros H; now destruct H | reflexivity]. Qed.

(** X8. A refresh whose SELECT succeeds returns [True], stamps the cache
    with the clock read after the SELECT, and stores one entry per row in
    row order with the row's title, id, category and content reference; the
    media type of an entry is never empty: the row's own when it has one,
    "document" when the column is NULL or empty. *)
Theorem successful_refresh_mirrors_the_table
        (E : env) (w : world) (rows : list movie_row) :
  movies_table E (trace w) = inl rows ->
  exists w',
    refresh_movie_cache E w = (Return true, w')
    /\ last_cache_refresh w' = datetime_now E (trace w ++ [SelectMovies])
    /\ trace w' = trace w ++ [SelectMovies]
    /\ Forall2 (fun r m =>
                  title m = row_title r /\ id m = row_message_id r
                  /\ category m = row_category r /\ file_id m = row_file_id r
                  /\ media_type m <> EmptyString
                  /\ (forall s, row_media_type r = Some s -> s <> EmptyString ->
                                media_type m = s)
                  /\ (row_media_type r = None \/ row_media_type r = Some EmptyString ->
                      media_type m = "document"%string))
               rows (movie_cache w').
Proof.
  intros H. eexists. unfold refresh_movie_cache. rewrite H.
  split; [reflexivity|]. cbn [last_cache_refresh trace movie_cache record extend].
  repeat split. clear H.
  induction rows as [|r rest IH]; cbn [map]; [constructor|].
  constructor; [|exact IH].
  cbn [movie_of_row title id category file_id media_type].
  repeat split.
  - apply or_document_nonempty.
  - intros s -> Hs. now apply or_document_keeps.
  - intros [-> | ->]; reflexivity.
Qed.

Lemma successful_refresh_mirrors_the_table_witness :
  exists w',
    refresh_movie_cache
      (env_with (after t_2024 0 1 0 0) (inl rows_A_A_B) api_ok)
      (world_with [inception] t_2024)
    = (Return true, w')
    /\ last_cache_refresh w' = after t_2024 0 1 0 0
    /\ map media_type (movie_cache w') = ["document"; "document"; "document"]%string.
Proof.
  destruct (successful_refresh_mirrors_the_table
              (env_with (after t_2024 0 1 0 0) (inl rows_A_A_B) api_ok)
              (world_with [inception] t_2024) rows_A_A_B eq_refl)
    as (w' & Hrun & Hlast & _ & _).
  exists w'. split; [exact Hrun|]. split; [exact Hlast|].
  vm_compute in Hrun. injection Hrun as <-. reflexivity.
Defined.

(** X9. As long as less than one day has passed since the last refresh
    (and the clock did not go back), a read path refreshes exactly when at
    least 301 whole seconds have passed: at 300 seconds and any fraction it
    still uses the cache. *)
Theorem within_a_day_refresh_is_due_after_300_seconds (now last : datetime) :
  0 <= now - last < US_PER_DAY ->
  (refresh_needed now last = true <-> 301 * US_PER_SECOND <= now - last).
Proof. intros H. exact (refresh_needed_within_a_day now last H). Qed.

Lemma within_a_day_refresh_is_due_after_300_seconds_witness :
  refresh_needed (t_2024 + 300999999) t_2024 = false
  /\ refresh_needed (t_2024 + 301000000) t_2024 = true.
Proof.
  split.
  - destruct (refresh_needed (t_2024 + 300999999) t_2024) eqn:H; [|reflexivity].
    apply (within_a_day_refresh_is_due_after_300_seconds
             (t_2024 + 300999999) t_2024) in H;
      [exfalso | unfold US_PER_DAY, US_PER_SECOND];
      unfold US_PER_SECOND, t_2024 in *; lia.
  - apply (within_a_day_refresh_is_due_after_300_seconds
             (t_2024 + 301000000) t_2024);
      unfold US_PER_DAY, US_PER_SECOND, t_2024; lia.
Defined.




(** ** Browsing and inline answers *)

Lemma refresh_if_needed_events (E : env) (w : world) :
  exists w1,
    refresh_if_needed E w = (Return tt, w1)
    /\ (trace w1 = trace w \/ trace w1 = trace w ++ [SelectMovies]).
Proof.
  unfold refresh_if_needed, bind, ask, get, ret.
  destruct (refresh_needed _ _); [|exists w; now split; [|left]].
  unfold refresh_movie_cache.
  destruct (movies_table E (trace w)) as [rows|[]];
    eexists; (split; [reflexivity|]); right; reflexivity.
Qed.


Lemma get_category_keyboard_shape (E : env) (w : world) :
  exists kb, get_category_keyboard E w = (Return kb, extend w [SelectCategories]).
Proof.
  unfold get_category_keyboard, record.
  destruct (categories_table E (trace w)) as [names|[]]; eexists; reflexivity.
Qed.


Lemma length_firstn_min {A : Type} (n : nat) (l : list A) :
  List.length (firstn n l) = Nat.min n (List.length l).
Proof. apply length_firstn. Qed.

(** X12. For a query of at least two characters the inline handler, after
    the check-and-refresh, makes exactly one call: it answers with the first
    [min 50 matches] matches of the cache in search order, as a cached video
    for an entry whose media type is "video" and as a cached document
    otherwise. It sends or forwards nothing, and entries without a content
    reference are answered like the others. *)
Theorem inline_answer_is_the_first_fifty_matches
        (E : env) (w : world) (query : string) :
  (2 <= String.length query)%nat ->
  exists r w1 results,
    refresh_if_needed E w = (Return tt, w1)
    /\ inline_query_handler query E w
       = (r, extend w1 [Api (answer results)])
    /\ List.length results
       = Nat.min 50 (List.length (search_cache (movie_cache w1) query))
    /\ Forall2 (fun m res =>
                  res = (if String.eqb (media_type m) "video"
                         then InlineQueryResultCachedVideo m
                         else InlineQueryResultCachedDocument m))
               (firstn 50 (search_cache (movie_cache w1) query)) results.
Proof.
  intros Hlen.
  destruct (refresh_if_needed_events E w) as (w1 & Hr & _).
  unfold inline_query_handler.
  assert (Hguard : is_empty query || (String.length query <? 2)%nat = false).
  { destruct query as [|c q]; [simpl in Hlen; lia|]. cbn [is_empty orb].
    apply Nat.ltb_ge. exact Hlen. }
  rewrite Hguard. unfold bind at 1. rewrite Hr. unfold bind at 1, get.
  destruct (api_shape E w1
              (answer (map inline_result_of
                           (firstn 50 (search_cache (movie_cache w1) query)))))
    as [r ->].
  exists r, w1. eexists. split; [reflexivity|]. split; [reflexivity|].
  split; [now rewrite length_map, length_firstn|].
  induction (firstn 50 (search_cache (movie_cache w1) query)) as [|m l IH];
    cbn [map]; constructor; [reflexivity | exact IH].
Qed.

Lemma inline_answer_is_the_first_fifty_matches_witness :
  exists r w1 results,
    refresh_if_needed (env_with (after t_2024 0 0 1 0) (inl []) api_ok)
                      (world_with [inception; the_matrix; heat] t_2024)
    = (Return tt, w1)
    /\ inline_query_handler "matrix"
         (env_with (after t_2024 0 0 1 0) (inl []) api_ok)
         (world_with [inception; the_matrix; heat] t_2024)
       = (r, extend w1 [Api (answer results)])
    /\ List.length results
       = Nat.min 50 (List.length (search_cache (movie_cache w1) "matrix"))
    /\ Forall2 (fun m res =>
                  res = (if String.eqb (media_type m) "video"
                         then InlineQueryResultCachedVideo m
                         else InlineQueryResultCachedDocument m))
               (firstn 50 (search_cache (movie_cache w1) "matrix")) results.
Proof.
  apply (inline_answer_is_the_first_fifty_matches
           (env_with (after t_2024 0 0 1 0) (inl []) api_ok)
           (world_with [inception; the_matrix; heat] t_2024) "matrix").
  simpl. lia.
Defined.

(** ** Duplicate titles: when the report is empty, and how long it can be *)

Lemma total_count_bump (t : string) (groups : list (string * nat)) :
  total_count (bump t groups) = S (total_count groups).
Proof.
  induction groups as [|[k n] rest IH]; simpl; [reflexivity|].
  destruct (String.eqb k t); simpl; [reflexivity | rewrite IH; lia].
Qed.

Lemma total_count_fold (rows : list movie_row) (groups : list (string * nat)) :
  total_count (fold_left (fun g row => bump (row_title row) g) rows groups)
  = (total_count groups + List.length rows)%nat.
Proof.
  revert groups. induction rows as [|r rest IH]; intros groups; simpl; [lia|].
  rewrite IH, total_count_bump. lia.
Qed.

Lemma having_count_gt_1_total (groups : list (string * nat)) :
  (2 * List.length (having_count_gt_1 groups) <= total_count groups)%nat.
Proof.
  unfold having_count_gt_1.
  induction groups as [|[k n] rest IH]; cbn [filter total_count fold_right snd];
    [simpl; lia|].
  fold (total_count rest).
  destruct (Nat.ltb_spec 1 n); cbn [List.length]; lia.
Qed.

(** X13. On the rows of the table, the duplicate report is empty exactly
    when no two rows have the same title. *)
Theorem no_duplicates_reported_iff_titles_distinct (rows : list movie_row) :
  find_duplicate_movies (inl rows) = [] <-> NoDup (map row_title rows).
Proof.
  unfold find_duplicate_movies.
  destruct (group_by_title_counts rows) as [Hwf Hcount].
  rewrite (NoDup_count_occ string_dec). split.
  - intros Hnil t. fold (rows_titled t rows).
    destruct (Nat.le_gt_cases (rows_titled t rows) 1) as [Hle|Hgt]; [exact Hle|].
    exfalso.
    assert (Hin : In (t, rows_titled t rows) (having_count_gt_1 (group_by_title rows))).
    { unfold having_count_gt_1. apply filter_In. split.
      - apply (groups_wf_In _ t _ Hwf). rewrite Hcount. split; [reflexivity | lia].
      - cbn [snd]. now apply Nat.ltb_lt. }
    rewrite Hnil in Hin. destruct Hin.
  - intros Hle.
    destruct (having_count_gt_1 (group_by_title rows)) as [|[t c] rest] eqn:Hres;
      [reflexivity|].
    exfalso.
    assert (Hin : In (t, c) (having_count_gt_1 (group_by_title rows)))
      by (rewrite Hres; now left).
    unfold having_count_gt_1 in Hin. apply filter_In in Hin.
    destruct Hin as [Hin Hc]. cbn [snd] in Hc. apply Nat.ltb_lt in Hc.
    apply (groups_wf_In _ t c Hwf) in Hin. destruct Hin as [-> _].
    rewrite Hcount in Hc. specialize (Hle t). unfold rows_titled in Hc. lia.
Qed.

(** X14. The duplicate report has at most half as many groups as the table
    has rows, and the counts it reports add up to at most the number of
    rows. *)
Theorem duplicate_groups_are_at_most_half_the_rows (rows : list movie_row) :
  (2 * List.length (find_duplicate_movies (inl rows)) <= List.length rows)%nat
  /\ (total_count (find_duplicate_movies (inl rows)) <= List.length rows)%nat.
Proof.
  unfold find_duplicate_movies.
  assert (Htotal : total_count (group_by_title rows) = List.length rows).
  { unfold group_by_title. rewrite total_count_fold. reflexivity. }
  assert (Hsub : forall groups,
             (total_count (having_count_gt_1 groups) <= total_count groups)%nat).
  { unfold having_count_gt_1.
    induction groups as [|[k n] rest IH]; cbn [filter]; [lia|].
    cbn [snd]. destruct (1 <? n)%nat.
    - change (n + total_count (filter (fun g => (1 <? snd g)%nat) rest)
              <= n + total_count rest)%nat. lia.
    - change (total_count (filter (fun g => (1 <? snd g)%nat) rest)
              <= n + total_count rest)%nat. lia. }
  split.
  - pose proof (having_count_gt_1_total (group_by_title rows)). lia.
  - rewrite <- Htotal. apply Hsub.
Qed.

(** ** Store writes, and what the cache shows after them *)

Lemma delete_where_id_In (movie_id : Z) (rows : list movie_row) (r : movie_row) :
  In r (delete_where_id movie_id rows)
  <-> In r rows /\ row_message_id r <> movie_id.
Proof.
  unfold delete_where_id. rewrite filter_In, negb_true_iff, Z.eqb_neq. tauto.
Qed.



(** X16. After a delete without error and a refresh that reads the table it
    left, a delivery of the deleted id returns [False] and makes no Bot API
    call. *)
Theorem deleted_movie_is_not_delivered_after_refresh
        (E : env) (w : world) (db : database) (user_id movie_id : Z)
        (chat_id : option Z) :
  movies_table E (trace w)
  = inl (tbl_movies (snd (delete_movie_from_db None db movie_id))) ->
  exists w1,
    refresh_movie_cache E w = (Return true, w1)
    /\ send_movie_to_user user_id movie_id chat_id E w1 = (Return false, w1).
Proof.
  intros Htable. eexists. unfold refresh_movie_cache. rewrite Htable.
  split; [reflexivity|].
  run. cbn [movie_cache snd delete_movie_from_db tbl_movies].
  rewrite find_movie_none; [reflexivity|].
  intros m Hm. apply in_map_iff in Hm. destruct Hm as (r & <- & Hr).
  apply delete_where_id_In in Hr. cbn [movie_of_row id]. tauto.
Qed.

Lemma deleted_movie_is_not_delivered_after_refresh_witness :
  exists w1,
    refresh_movie_cache
      (env_with (after t_2024 0 1 0 0) (inl [row_of inception]) api_ok)
      (world_with [inception; heat] t_2024)
    = (Return true, w1)
    /\ send_movie_to_user 4242 104 (Some (-100777))
         (env_with (after t_2024 0 1 0 0) (inl [row_of inception]) api_ok) w1
       = (Return false, w1).
Proof.
  apply (deleted_movie_is_not_delivered_after_refresh
           (env_with (after t_2024 0 1 0 0) (inl [row_of inception]) api_ok)
           (world_with [inception; heat] t_2024)
           {| tbl_movies := [row_of inception; row_of heat];
              tbl_categories := ["Sci-Fi"; "Action"]%string |}
           4242 104 (Some (-100777))).
  reflexivity.
Defined.

Lemma find_movie_app_absent (a b : list movie) (movie_id : Z) :
  (forall m, In m a -> id m <> movie_id) ->
  find_movie (a ++ b) movie_id = find_movie b movie_id.
Proof.
  unfold find_movie. induction a as [|m rest IH]; intros H; simpl; [reflexivity|].
  destruct (Z.eqb_spec (id m) movie_id) as [Heq|Hne].
  - destruct (H m (or_introl eq_refl) Heq).
  - apply IH. intros m' Hm'. apply H. now right.
Qed.

(** X17. After an insert without error of a movie whose id no row has yet,
    and a refresh that reads the resulting table, the cache has one entry
    more and looking the id up yields the inserted title, category and
    content reference, with the media type given, or "document" when an
    empty one was given. *)
Theorem added_movie_is_found_by_id_after_refresh
        (E : env) (w : world) (db : database)
        (new_title : string) (message_id : Z) (new_category : string)
        (new_file_id : option string) (new_media_type : string) :
  (forall r, In r (tbl_movies db) -> row_message_id r <> message_id) ->
  movies_table E (trace w)
  = inl (tbl_movies (snd (add_movie_to_db None db new_title message_id
                            new_category new_file_id new_media_type))) ->
  exists w1,
    refresh_movie_cache E w = (Return true, w1)
    /\ List.length (movie_cache w1) = S (List.length (tbl_movies db))
    /\ find_movie (movie_cache w1) message_id
       = Some {| title := new_title; id := message_id;
                 category := new_category; file_id := new_file_id;
                 media_type := if is_empty new_media_type
                               then "document"%string else new_media_type |}.
Proof.
  intros Hfresh Htable. eexists. unfold refresh_movie_cache. rewrite Htable.
  split; [reflexivity|].
  cbn [movie_cache snd add_movie_to_db tbl_movies]. split.
  - rewrite length_map, length_app. cbn [List.length]. lia.
  - rewrite map_app, find_movie_app_absent.
    + cbn [map movie_of_row find_movie find id row_message_id].
      rewrite Z.eqb_refl. reflexivity.
    + intros m Hm. apply in_map_iff in Hm. destruct Hm as (r & <- & Hr).
      cbn [movie_of_row id]. now apply Hfresh.
Qed.

Lemma added_movie_is_found_by_id_after_refresh_witness :
  exists w1,
    refresh_movie_cache
      (env_with (after t_2024 0 1 0 0)
                (inl [row_of inception;
                      {| row_title := "Heat"; row_message_id := 104;
                         row_category := "Action";
                         row_file_id := Some "BQACAgQAAx0"%string;
                         row_media_type := Some EmptyString |}])
                api_ok)
      (world_with [inception] t_2024)
    = (Return true, w1)
    /\ List.length (movie_cache w1) = 2%nat
    /\ find_movie (movie_cache w1) 104
       = Some {| title := "Heat"; id := 104; category := "Action";
                 file_id := Some "BQACAgQAAx0"%string;
                 media_type := "document" |}.
Proof.
  apply (added_movie_is_found_by_id_after_refresh
           (env_with (after t_2024 0 1 0 0)
                     (inl [row_of inception;
                           {| row_title := "Heat"; row_message_id := 104;
                              row_category := "Action";
                              row_file_id := Some "BQACAgQAAx0"%string;
                              row_media_type := Some EmptyString |}])
                     api_ok)
           (world_with [inception] t_2024)
           {| tbl_movies := [row_of inception]; tbl_categories := ["Sci-Fi"%string] |}
           "Heat" 104 "Action" (Some "BQACAgQAAx0"%string) EmptyString).
  - intros r [<- | []]. discriminate.
  - reflexivity.
Defined.

Lemma rows_titled_app (t : string) (a b : list movie_row) :
  rows_titled t (a ++ b) = (rows_titled t a + rows_titled t b)%nat.
Proof. unfold rows_titled. now rewrite map_app, count_occ_app. Qed.

(** X18. After an insert without error of a movie whose title some row
    already has, the duplicate report on the resulting table lists that
    title with the number of rows that had it plus one. *)
Theorem added_duplicate_title_is_reported
        (db : database) (new_title : string) (message_id : Z)
        (new_category : string) (new_file_id : option string)
        (new_media_type : string) :
  (0 < rows_titled new_title (tbl_movies db))%nat ->
  In (new_title, S (rows_titled new_title (tbl_movies db)))
     (find_duplicate_movies
        (inl (tbl_movies (snd (add_movie_to_db None db new_title message_id
                                 new_category new_file_id new_media_type))))).
Proof.
  intros Hpos. cbn [snd add_movie_to_db tbl_movies find_duplicate_movies].
  set (rows' := tbl_movies db ++ _).
  destruct (group_by_title_counts rows') as [Hwf Hcount].
  assert (Hn : rows_titled new_title rows' = S (rows_titled new_title (tbl_movies db))).
  { unfold rows'. rewrite rows_titled_app. unfold rows_titled at 2.
    cbn [map row_title count_occ].
    destruct (string_dec new_title new_title) as [_|Hne]; [lia | now destruct Hne]. }
  unfold having_count_gt_1. apply filter_In. split.
  - apply (groups_wf_In _ _ _ Hwf). rewrite Hcount, Hn. split; [reflexivity | lia].
  - cbn [snd]. apply Nat.ltb_lt. lia.
Qed.

Lemma added_duplicate_title_is_reported_witness :
  In ("A"%string, 3%nat)
     (find_duplicate_movies
        (inl (tbl_movies
                (snd (add_movie_to_db None
                        {| tbl_movies := rows_A_A_B; tbl_categories := ["Other"%string] |}
                        "A" 4 "Other" None "document"))))).
Proof.
  apply (added_duplicate_title_is_reported
           {| tbl_movies := rows_A_A_B; tbl_categories := ["Other"%string] |}
           "A" 4 "Other" None "document").
  vm_compute. lia.
Defined.

Lemma insert_or_ignore_NoDup (name : string) (names : list string) :
  NoDup names -> NoDup (insert_or_ignore name names).
Proof.
  intros Hnd. unfold insert_or_ignore.
  destruct (in_dec string_dec name names) as [Hin|Hout]; [exact Hnd|].
  apply NoDup_app; [exact Hnd | repeat constructor; intros [] | ].
  intros x Hx [<- | []]. exact (Hout Hx).
Qed.

(** X19. Whatever step of [add_movie_to_db] fails or none, a category table
    without repeated names stays without repeated names and loses no name;
    when the insert returns [True] the movie's category is in it. *)
Theorem add_movie_keeps_categories_distinct
        (fault : option add_movie_step) (db : database)
        (new_title : string) (message_id : Z) (new_category : string)
        (new_file_id : option string) (new_media_type : string) :
  NoDup (tbl_categories db) ->
  let result := add_movie_to_db fault db new_title message_id new_category
                                new_file_id new_media_type in
  NoDup (tbl_categories (snd result))
  /\ (forall name, In name (tbl_categories db) ->
                   In name (tbl_categories (snd result)))
  /\ (fst result = true -> In new_category (tbl_categories (snd result))).
Proof.
  intros Hnd result. subst result. unfold add_movie_to_db.
  destruct fault as [[]|]; cbn [fst snd tbl_categories];
    (split; [try exact Hnd | split; [try tauto | try discriminate]]).
  - now apply insert_or_ignore_NoDup.
  - intros name Hin. unfold insert_or_ignore.
    destruct (in_dec string_dec new_category (tbl_categories db));
      [exact Hin | apply in_or_app; now left].
  - intros _. unfold insert_or_ignore.
    destruct (in_dec string_dec new_category (tbl_categories db)) as [Hin|Hout];
      [exact Hin | apply in_or_app; right; now left].
Qed.

Lemma add_movie_keeps_categories_distinct_witness :
  NoDup (tbl_categories
           (snd (add_movie_to_db None
                   {| tbl_movies := []; tbl_categories := ["Action"; "Drama"]%string |}
                   "Heat" 104 "Action" None "video"))).
Proof.
  apply (add_movie_keeps_categories_distinct None
           {| tbl_movies := []; tbl_categories := ["Action"; "Drama"]%string |}
           "Heat" 104 "Action" None "video").
  repeat constructor; simpl; intros H; intuition discriminate.
Defined.



(** X21. A write that does not return [True] has changed nothing, with one
    exception: a failed delete and a failed or refused update (including the
    one that raises [TypeError]) leave both tables as they were, while
    [add_movie_to_db] failing at its category statement returns [False]
    after the movie row has been stored. An insert returns [True] exactly
    when no step failed. *)
Theorem failed_writes_and_the_half_done_insert
        (db : database) (movie_id : Z) :
  (forall step, delete_movie_from_db (Some step) db movie_id = (false, db))
  /\ (forall fault field value,
        fst (update_movie_in_db fault db movie_id field value) <> Updated true ->
        snd (update_movie_in_db fault db movie_id field value) = db)
  /\ (forall fault t c f m,
        let result := add_movie_to_db fault db t movie_id c f m in
        (fst result = true <-> fault = None)
        /\ (fst result = false ->
            tbl_categories (snd result) = tbl_categories db
            /\ (snd result = db
                \/ ((fault = Some AddInsertCategory \/ fault = Some AddCommitCategory)
                    /\ List.length (tbl_movies (snd result))
                       = S (List.length (tbl_movies db))))))
  /\ (forall t c f m,
        tbl_movies (snd (add_movie_to_db (Some AddInsertCategory) db t movie_id c f m))
        = tbl_movies db
          ++ [ {| row_title := t; row_message_id := movie_id; row_category := c;
                  row_file_id := f; row_media_type := Some m |} ]).
Proof.
  split; [reflexivity|]. split; [|split; [|reflexivity]].
  - intros fault field value. unfold update_movie_in_db.
    destruct fault as [[]|]; cbn [fst snd]; try reflexivity;
      destruct (String.eqb field "title"); [destruct value| | destruct value| |
                                            destruct value|];
      cbn [fst snd]; try reflexivity; try (intros H; now destruct H);
      destruct (String.eqb field "category"); try destruct value;
      cbn [fst snd]; try reflexivity; try (intros H; now destruct H);
      destruct (String.eqb field "file"); try destruct value;
      cbn [fst snd]; try reflexivity; intros H; now destruct H.
  - intros fault t c f m result. subst result. unfold add_movie_to_db.
    destruct db as [rows cats].
    destruct fault as [[]|]; cbn [fst snd tbl_movies tbl_categories];
      (split; [split; intros H; try discriminate; reflexivity|]);
      intros H; try discriminate; (split; [reflexivity|]);
      try (left; reflexivity);
      right; (split; [tauto|]); rewrite length_app; cbn [List.length]; lia.
Qed.

(** X22. After a title update without error of an id some row has, and a
    refresh that reads the resulting table, a search for the new title
    (which must have a character that is not whitespace) finds an entry with
    that id and that title. *)
Theorem retitled_movie_is_found_by_its_new_title
        (E : env) (w : world) (db : database) (movie_id : Z) (v : string) :
  (exists r, In r (tbl_movies db) /\ row_message_id r = movie_id) ->
  has_word v ->
  movies_table E (trace w)
  = inl (tbl_movies (snd (update_movie_in_db None db movie_id "title" (TextValue v)))) ->
  exists w1 m,
    refresh_movie_cache E w = (Return true, w1)
    /\ In m (search_cache (movie_cache w1) v)
    /\ id m = movie_id
    /\ title m = v.
Proof.
  intros (r & Hr & Hid) Hword Htable.
  eexists. exists (movie_of_row (set_title v r)).
  unfold refresh_movie_cache. rewrite Htable. split; [reflexivity|].
  cbn [movie_cache snd update_movie_in_db tbl_movies String.eqb Ascii.eqb].
  split; [|split; [exact Hid | reflexivity]].
  change v with (title (movie_of_row (set_title v r))) at 2.
  apply search_finds_own_title; [|exact Hword].
  apply in_map. unfold update_where_id. apply in_map_iff. exists r.
  split; [|exact Hr]. now rewrite Hid, Z.eqb_refl.
Qed.

Lemma retitled_movie_is_found_by_its_new_title_witness :
  exists w1 m,
    refresh_movie_cache
      (env_with (after t_2024 0 1 0 0)
         (inl (tbl_movies
                 (snd (update_movie_in_db None
                         {| tbl_movies := [row_of inception; row_of heat];
                            tbl_categories := [] |}
                         104 "title" (TextValue "Heat (1995)")))))
         api_ok)
      (world_with [inception; heat] t_2024)
    = (Return true, w1)
    /\ In m (search_cache (movie_cache w1) "Heat (1995)")
    /\ id m = 104
    /\ title m = "Heat (1995)"%string.
Proof.
  apply (retitled_movie_is_found_by_its_new_title
           (env_with (after t_2024 0 1 0 0)
              (inl (tbl_movies
                      (snd (update_movie_in_db None
                              {| tbl_movies := [row_of inception; row_of heat];
                                 tbl_categories := [] |}
                              104 "title" (TextValue "Heat (1995)")))))
              api_ok)
           (world_with [inception; heat] t_2024)
           {| tbl_movies := [row_of inception; row_of heat]; tbl_categories := [] |}
           104 "Heat (1995)").
  - exists (row_of heat). split; [simpl; tauto | reflexivity].
  - exists "H"%char. split; [simpl; tauto | reflexivity].
  - reflexivity.
Defined.

(** ** The callback handler and its keyboards *)

(** X23. The callback data the category keyboard builds for one of its
    category names is routed back to the category page of exactly that
    name, for every user and every name. *)
Theorem category_button_opens_its_category
        (ADMIN_USER_ID user_id : Z) (names : list string) (name : string) :
  (In name names ->
   In [CallbackButton ("cat_" ++ name)%string] (category_buttons names))
  /\ button_handler ADMIN_USER_ID user_id ("cat_" ++ name)%string
     = (show_category_movies name ;; ret Delegated).
Proof.
  split; [|reflexivity].
  intros Hin. unfold category_buttons. apply in_or_app. left.
  apply in_map_iff. now exists name.
Qed.

Lemma show_category_movies_fresh (E : env) (w : world) (cat : string) :
  refresh_needed (datetime_now E (trace w)) (last_cache_refresh w) = false ->
  exists r w' evs,
    show_category_movies cat E w = (r, w')
    /\ grows_by w w' evs
    /\ count_events is_select_movies evs = 0%nat.
Proof.
  intros Hfresh. unfold show_category_movies, bind at 1.
  rewrite (refresh_if_needed_fresh E w Hfresh). unfold bind at 1, get.
  destruct (filter _ (movie_cache w)); unfold bind at 1;
    destruct (get_category_keyboard_shape E w) as [kb ->];
    match goal with
    | |- context [api ?c E ?w0] => destruct (api_shape E w0 c) as [r ->]
    end;
    do 3 eexists; (split; [reflexivity|]); (split; [grown | reflexivity]).
Qed.

Lemma list_all_movies_fresh (E : env) (w : world) (from_user_id : Z) :
  refresh_needed (datetime_now E (trace w)) (last_cache_refresh w) = false ->
  exists r w' evs,
    list_all_movies from_user_id E w = (r, w')
    /\ grows_by w w' evs
    /\ count_events is_select_movies evs = 0%nat.
Proof.
  intros Hfresh. unfold list_all_movies, bind at 1.
  rewrite (refresh_if_needed_fresh E w Hfresh). unfold bind at 1, get.
  destruct (movie_cache w) eqn:Hc;
    match goal with
    | |- context [api ?c E ?w0] => destruct (api_shape E w0 c) as [r ->]
    end;
    do 3 eexists; (split; [reflexivity|]); (split; [grown | reflexivity]).
Qed.

(** X24. A user who is not the admin cannot make the handler refresh the
    cache: whatever the callback data, while the cache is fresh the run
    leaves the cache and its refresh time as they are and never reads the
    movies table; and the data 'admin_panel', 'refresh_cache' and
    'movie_tools' are answered with the unknown-command menu and nothing
    else happens. *)
Theorem non_admin_cannot_refresh_the_cache
        (E : env) (w : world) (ADMIN_USER_ID user_id : Z) (data : string) :
  user_id <> ADMIN_USER_ID ->
  refresh_needed (datetime_now E (trace w)) (last_cache_refresh w) = false ->
  (exists r w' evs,
      button_handler ADMIN_USER_ID user_id data E w = (r, w')
      /\ grows_by w w' evs
      /\ count_events is_select_movies evs = 0%nat)
  /\ (data = "admin_panel"%string \/ data = "refresh_cache"%string
      \/ data = "movie_tools"%string ->
      button_handler ADMIN_USER_ID user_id data E w
      = (Return (Edited MenuUnknownCommand (Markup (MainMenuKeyboard user_id))), w)).
Proof.
  intros Huser Hfresh. apply Z.eqb_neq in Huser. split.
  - unfold button_handler. rewrite Huser, !andb_false_r.
    destruct (String.eqb data "main_menu");
      [exists (Return (Edited MenuMainMenu (Markup (MainMenuKeyboard user_id)))), w, [];
       split; [reflexivity | split; [apply grows_by_refl | reflexivity]]|].
    destruct (String.eqb data "show_categories").
    { unfold bind. destruct (get_category_keyboard_shape E w) as [kb ->].
      do 3 eexists. split; [reflexivity|]. split; [grown | reflexivity]. }
    destruct (startswith "cat_" data).
    { unfold bind.
      destruct (show_category_movies_fresh E w (str_drop 4 data) Hfresh)
        as (r & w' & evs & -> & Hg & Hs).
      destruct r; do 3 eexists; (split; [reflexivity|]); split; eassumption. }
    destruct (String.eqb data "list_all").
    { unfold bind.
      destruct (list_all_movies_fresh E w user_id Hfresh)
        as (r & w' & evs & -> & Hg & Hs).
      destruct r; do 3 eexists; (split; [reflexivity|]); split; eassumption. }
    destruct (String.eqb data "admin_back");
      do 3 eexists; (split; [reflexivity|]);
      (split; [apply grows_by_refl | reflexivity]).
  - intros [-> | [-> | ->]]; unfold button_handler; rewrite Huser; reflexivity.
Qed.

Lemma non_admin_cannot_refresh_the_cache_witness :
  button_handler 1 4242 "refresh_cache"
    (env_with (after t_2024 0 0 1 0) (inl (map row_of [inception; heat])) api_ok)
    (world_with [inception] t_2024)
  = (Return (Edited MenuUnknownCommand (Markup (MainMenuKeyboard 4242))),
     world_with [inception] t_2024).
Proof.
  apply (proj2 (non_admin_cannot_refresh_the_cache
                  (env_with (after t_2024 0 0 1 0)
                            (inl (map row_of [inception; heat])) api_ok)
                  (world_with [inception] t_2024) 1 4242 "refresh_cache"
                  ltac:(discriminate) eq_refl)).
  right. left. reflexivity.
Defined.

(** X25. For the admin the data 'refresh_cache' runs the refresh and then
    always asks for the "Cache refreshed successfully!" menu: the result of
    the refresh is not looked at, so when the SELECT raises the cache and
    its refresh time are unchanged and the success text is shown all the
    same. *)
Theorem manual_refresh_always_reports_success
        (E : env) (w : world) (ADMIN_USER_ID : Z) :
  exists ok w',
    refresh_movie_cache E w = (Return ok, w')
    /\ button_handler ADMIN_USER_ID ADMIN_USER_ID "refresh_cache" E w
       = (Return (Edited MenuCacheRefreshed
                         (Markup (MainMenuKeyboard ADMIN_USER_ID))), w')
    /\ (movies_table E (trace w) = inr Sqlite3Error ->
        ok = false
        /\ movie_cache w' = movie_cache w
        /\ last_cache_refresh w' = last_cache_refresh w).
Proof.
  unfold button_handler. rewrite Z.eqb_refl. cbn [String.eqb Ascii.eqb Bool.eqb andb startswith].
  unfold bind, ret, refresh_movie_cache.
  destruct (movies_table E (trace w)) as [rows|[]];
    do 2 eexists; (split; [reflexivity|]); (split; [reflexivity|]).
  - discriminate.
  - intros _. repeat split.
Qed.

Lemma bind_never_edits {A : Type} (m : M A) (E : env) (w : world)
      (t : menu_text) (kb : menu_keyboard) :
  fst ((m ;; ret Delegated) E w) <> Return (Edited t kb).
Proof. unfold bind, ret. destruct (m E w) as [[a|e] w']; discriminate. Qed.

(** X26. No button of the main menu or of the category keyboard is dead:
    for every callback button the main menu shows to a user, and for every
    callback button of the category keyboard, the handler run for that same
    user never ends in the unknown-command menu. *)
Theorem menu_buttons_are_all_handled
        (E : env) (w : world) (ADMIN_USER_ID user_id : Z)
        (names : list string) (row : list button) (data : string)
        (kb : menu_keyboard) :
  In row (get_main_menu_keyboard ADMIN_USER_ID user_id)
  \/ In row (category_buttons names) ->
  In (CallbackButton data) row ->
  fst (button_handler ADMIN_USER_ID user_id data E w)
  <> Return (Edited MenuUnknownCommand kb).
Proof.
  intros [Hrow | Hrow] Hdata.
  - unfold get_main_menu_keyboard in Hrow.
    destruct (user_id =? ADMIN_USER_ID) eqn:Hadmin; cbn [app In] in Hrow;
      repeat (destruct Hrow as [<- | Hrow];
              [destruct Hdata as [Hd | []]; try discriminate;
               injection Hd as <-|]);
      try destruct Hrow;
      unfold button_handler; rewrite Hadmin;
      cbn [String.eqb Ascii.eqb Bool.eqb andb startswith];
      try apply bind_never_edits; try discriminate.
    + unfold bind, ret. destruct (get_category_keyboard_shape E w) as [k ->].
      discriminate.
    + unfold bind, ret, refresh_movie_cache.
      destruct (movies_table E (trace w)) as [rows|[]]; discriminate.
    + unfold bind, ret. destruct (get_category_keyboard_shape E w) as [k ->].
      discriminate.
  - unfold category_buttons in Hrow. apply in_app_or in Hrow.
    destruct Hrow as [Hrow | [<- | []]].
    + apply in_map_iff in Hrow. destruct Hrow as (name & <- & _).
      destruct Hdata as [Hd | []]. injection Hd as <-.
      change (button_handler ADMIN_USER_ID user_id ("cat_" ++ name)%string)
        with (show_category_movies name ;; ret Delegated).
      apply bind_never_edits.
    + destruct Hdata as [Hd | []]. injection Hd as <-. discriminate.
Qed.

Lemma menu_buttons_are_all_handled_witness :
  fst (button_handler 1 4242 "list_all"
         (env_with (after t_2024 0 0 1 0) (inl []) api_ok)
         (world_with [inception] t_2024))
  <> Return (Edited MenuUnknownCommand (Markup (MainMenuKeyboard 4242))).
Proof.
  apply (menu_buttons_are_all_handled
           (env_with (after t_2024 0 0 1 0) (inl []) api_ok)
           (world_with [inception] t_2024) 1 4242 []
           [CallbackButton "list_all"] "list_all"
           (Markup (MainMenuKeyboard 4242))).
  - left. simpl. tauto.
  - simpl. tauto.
Defined.

(** ** The library statistics *)

Lemma nodup_length_le (l : list string) :
  (List.length (nodup string_dec l) <= List.length l)%nat.
Proof.
  induction l as [|a l IH]; simpl; [lia|].
  destruct (in_dec string_dec a l); simpl; lia.
Qed.

Lemma nodup_length_pos (a : string) (l : list string) :
  (0 < List.length (nodup string_dec (a :: l)))%nat.
Proof.
  assert (Hin : In a (nodup string_dec (a :: l))) by (apply nodup_In; now left).
  destruct (nodup string_dec (a :: l)); [destruct Hin | simpl; lia].
Qed.

(** X27. When the list-all page reports statistics, the number of movies is
    the number of cached entries and is positive, the number of categories
    is the number of distinct category strings among them, hence at least
    one and at most the number of movies, and the time shown is the time of
    the last refresh of the cache that was read. *)
Theorem library_stats_count_the_cache
        (E : env) (w : world) (from_user_id : Z) :
  exists r w' evs,
    list_all_movies from_user_id E w = (r, w')
    /\ trace w' = trace w ++ evs
    /\ forall total cats shown kb,
         In (Api (edit_message_text (TxtLibraryStats total cats shown) kb)) evs ->
         total = List.length (movie_cache w')
         /\ cats = List.length (nodup string_dec (map category (movie_cache w')))
         /\ (1 <= cats <= total)%nat
         /\ shown = last_cache_refresh w'.
Proof.
  destruct (refresh_if_needed_events E w) as (w1 & Hr & Ht1).
  unfold list_all_movies, bind at 1. rewrite Hr. unfold bind at 1, get.
  assert (Hold : forall ev, In ev (skipn (List.length (trace w)) (trace w1)) ->
                            ev = SelectMovies).
  { intros ev Hin. destruct Ht1 as [Ht | Ht]; rewrite Ht in Hin;
      rewrite ?skipn_app, skipn_all, ?Nat.sub_diag in Hin; cbn [skipn app] in Hin;
      [destruct Hin | destruct Hin as [<- | []]; reflexivity]. }
  assert (Htrace : forall ev,
             trace w1 ++ [ev]
             = trace w ++ skipn (List.length (trace w)) (trace w1) ++ [ev]).
  { intros ev. destruct Ht1 as [-> | ->];
      rewrite ?skipn_app, skipn_all, ?Nat.sub_diag; cbn [skipn app];
      rewrite <- ?app_assoc; reflexivity. }
  destruct (movie_cache w1) as [|m0 others] eqn:Hcache;
    match goal with
    | |- context [api ?c E ?w0] => destruct (api_shape E w0 c) as [r ->]
    end;
    exists r; eexists; eexists (skipn (List.length (trace w)) (trace w1) ++ [_]);
    (split; [reflexivity|]); cbn [trace extend movie_cache last_cache_refresh];
    (split; [apply Htrace|]);
    intros total cats shown kb Hin; apply in_app_or in Hin;
    destruct Hin as [Hin | [Hin | []]];
    try (apply Hold in Hin; discriminate); try discriminate.
  injection Hin as <- <- <- _. rewrite Hcache.
  split; [reflexivity|]. split; [reflexivity|]. split; [|reflexivity].
  split.
  - apply (nodup_length_pos (category m0) (map category others)).
  - pose proof (nodup_length_le (map category (m0 :: others))) as Hle.
    rewrite length_map in Hle. exact Hle.
Qed.
